(** * Stackdriver formatter for logrus: a shallow embedding of formatter.go

    The development follows the source file top to bottom: the wire
    structs and their [omitempty] JSON encoding, the formatter
    configuration, origin resolution over the call stack ([errorOrigin]),
    and [Format], which rewrites the record's field map in place while it
    fills the envelope.

    What the Go code gets from other packages is modelled as data:
    - the call stack seen by [stack.Caller] is a list of calls, a call
      being either a resolved frame or the zero [stack.Call];
    - the current instant, already rendered by [time.Format], is a string;
    - a field value ([interface{}]) is nil, a string, a
      [map[string]interface{}] or a value of any other dynamic type, the
      latter given by what [fmt] and [encoding/json] make of it;
    - the bytes produced by [json.Marshal] are represented by the JSON
      document they spell (object members in output order). *)

From Stdlib Require Import ZArith NArith Ascii String DecimalString DecimalN DecimalZ.
From stdpp Require Import gmap strings list fin_maps sorting.

#[local] Set Warnings "-register-all".

Local Open Scope string_scope.

(** ** Strings: the part of package [strings] used by the formatter *)

Fixpoint str_drop (n : nat) (s : string) : string :=
  match n, s with
  | O, _ => s
  | S n', String _ s' => str_drop n' s'
  | S _, EmptyString => EmptyString
  end.

Fixpoint str_take (n : nat) (s : string) : string :=
  match n, s with
  | O, _ => EmptyString
  | S n', String c s' => String c (str_take n' s')
  | S _, EmptyString => EmptyString
  end.

(** [strings.Index(s, sep)]: position of the first instance of [sep] in
    [s], [None] standing for -1. *)
Fixpoint strings_Index (s sep : string) : option nat :=
  if String.prefix sep s then Some O
  else match s with
       | EmptyString => None
       | String _ s' => S <$> strings_Index s' sep
       end.

(** The splitting loop of [strings.SplitN] for a non-empty separator:
    [n] is the number of cuts still allowed. *)
Fixpoint genSplit (n : nat) (s sep : string) : list string :=
  match n with
  | O => [s]
  | S n' =>
      match strings_Index s sep with
      | None => [s]
      | Some m =>
          str_take m s :: genSplit n' (str_drop (m + String.length sep) s) sep
      end
  end.

(** [strings.SplitN(s, sep, n)] for [n >= 0] and a non-empty [sep]: at
    most [n] substrings, the last one being the unsplit remainder. *)
Definition strings_SplitN (s sep : string) (n : nat) : list string :=
  match n `min` (String.length s + 1) with
  | O => []
  | S cuts => genSplit cuts s sep
  end.

(** ** Decimal numbers: [%d] and [strconv.ParseInt] *)

(** [fmt.Sprintf("%d", n)] for a Go [int]. *)
Definition fmt_d (n : Z) : string := NilEmpty.string_of_int (Z.to_int n).

Definition maxInt64 : Z := 9223372036854775807.
Definition minInt64 : Z := -9223372036854775808.

(** The digits of [strconv.ParseUint(s, 10, 64)]: every byte must be a
    decimal digit and there must be at least one. *)
Definition parse_digits (s : string) : option N :=
  match s with
  | EmptyString => None
  | _ => N.of_uint <$> NilEmpty.uint_of_string s
  end.

(** [strconv.ParseInt(s, 10, 64)]: the value and whether an error is
    returned.  A syntax error yields 0, a range error the nearest bound. *)
Definition strconv_ParseInt (s : string) : Z * bool :=
  let '(neg, digits) :=
    match s with
    | String "+"%char r => (false, r)
    | String "-"%char r => (true, r)
    | _ => (false, s)
    end in
  match parse_digits digits with
  | None => (0%Z, true)
  | Some un =>
      let v := Z.of_N un in
      if neg then
        if (- minInt64 <? v)%Z then (minInt64, true) else ((- v)%Z, false)
      else
        if (maxInt64 <? v)%Z then (maxInt64, true) else (v, false)
  end.

(** ** The call stack (package go-stack/stack) *)

(** A resolved frame, given by what the four verbs used by the formatter
    print for it. *)
Record Frame := {
  frame_pkg : string;    (* %+k: import path of the function's package *)
  frame_file : string;   (* %+s: file path relative to the source root *)
  frame_line : N;        (* %d: line number *)
  frame_func : string    (* %n: function name *)
}.

(** [stack.Call]; [None] is the zero call, the one [stack.Caller] returns
    beyond the end of the stack. *)
Abbreviation Call := (option Frame).

(** [stack.Caller(i)] on the stack [st], whose element 0 is the frame of
    the function calling [stack.Caller]. *)
Definition stack_Caller (st : list Call) (i : nat) : Call :=
  default None (st !! i).

(** The error of [c.MarshalText()]: [ErrNoFunc] exactly on the zero call. *)
Definition MarshalText_err (c : Call) : bool :=
  match c with None => true | Some _ => false end.

(** [fmt.Sprintf] with one of the verbs [%+k], [%+s], [%d], [%n] on a call;
    the zero call prints as a bad-verb marker. *)
Definition NOFUNC (verb : string) : string := "%!" +:+ verb +:+ "(NOFUNC)".

Definition fmt_plus_k (c : Call) : string :=
  match c with Some fr => frame_pkg fr | None => NOFUNC "k" end.
Definition fmt_plus_s (c : Call) : string :=
  match c with Some fr => frame_file fr | None => NOFUNC "s" end.
Definition fmt_d_call (c : Call) : string :=
  match c with Some fr => fmt_d (Z.of_N (frame_line fr)) | None => NOFUNC "d" end.
Definition fmt_n (c : Call) : string :=
  match c with Some fr => frame_func fr | None => NOFUNC "n" end.

(** ** Formatter configuration *)

Record Formatter := {
  Service : string;
  Version : string;
  StackSkip : list string
}.

Definition Option := Formatter -> Formatter.

Definition WithService (n : string) : Option :=
  fun f => {| Service := n; Version := Version f; StackSkip := StackSkip f |}.

Definition WithVersion (v : string) : Option :=
  fun f => {| Service := Service f; Version := v; StackSkip := StackSkip f |}.

Definition WithStackSkip (v : string) : Option :=
  fun f => {| Service := Service f; Version := Version f;
              StackSkip := StackSkip f ++ [v] |}.

Definition NewFormatter (options : list Option) : Formatter :=
  foldl (fun fmtr option => option fmtr)
        {| Service := ""; Version := "";
           StackSkip := ["github.com/sirupsen/logrus"] |}
        options.

(** ** Origin resolution *)

(** The closure [skip] of [errorOrigin]. *)
Fixpoint skip_in (skips : list string) (pkg : string) : bool :=
  match skips with
  | [] => false
  | skip :: rest => if String.eqb pkg skip then true else skip_in rest pkg
  end.

Definition skip (f : Formatter) (pkg : string) : bool :=
  skip_in (StackSkip f) pkg.

(** Lines 156-157: the package path once vendoring is removed. *)
Definition strip_vendor (pkg : string) : string :=
  let parts := strings_SplitN pkg "/vendor/" 2 in
  default "" (parts !! (length parts - 1)).

(** The loop of [errorOrigin] over the frames from index [i] on; the list
    holds [stack.Caller(i)], [stack.Caller(i+1)], ... and the calls beyond
    it are zero calls.  The second component is the returned error, which
    is nil on both exits. *)
Fixpoint errorOrigin_from (f : Formatter) (frames : list Call)
  : Call * option string :=
  match frames with
  | [] => (None, None)
  | c :: rest =>
      if MarshalText_err c then (None, None)
      else
        let pkg := fmt_plus_k c in
        let pkg := strip_vendor pkg in
        if negb (skip f pkg) then (c, None)
        else errorOrigin_from f rest
  end.

(** We start at 2 to skip this call and our caller's call. *)
Definition errorOrigin (f : Formatter) (st : list Call) : Call * option string :=
  errorOrigin_from f (drop 2 st).

(** ** JSON documents and field values *)

(** The document spelled by the bytes of [json.Marshal]; a number is kept
    as its literal, an object as its members in output order. *)
Inductive JSON :=
| JNull
| JBool (b : bool)
| JNum (lit : string)
| JStr (s : string)
| JArr (items : list JSON)
| JObj (members : list (string * JSON)).

(** A field value of dynamic type.  [VString] is a Go [string], [VMap] a
    [map[string]interface{}]; these are the two types the formatter
    asserts.  [VOther str json] is a value of any other type (an error, a
    number, a struct, a channel, ...), given by what [fmt] prints for it
    under [%s] and by its [json.Marshal] encoding, [None] when the encoder
    rejects it. *)
Inductive Value :=
| VNil
| VString (s : string)
| VMap (m : gmap string Value)
| VOther (str : string) (json : option JSON).

(** An error built by [errors.New]: printed through [Error()], encoded as
    an object without members (its one field is unexported). *)
Definition go_error (msg : string) : Value := VOther msg (Some (JObj [])).

(** A Go [int]. *)
Definition go_int (n : Z) : Value :=
  VOther ("%!s(int=" +:+ fmt_d n +:+ ")") (Some (JNum (fmt_d n))).

(** The [float64] NaN, which [json.Marshal] rejects as unsupported. *)
Definition go_NaN : Value := VOther "%!s(float64=NaN)" None.

(** Maps are printed and encoded with their keys in increasing order. *)
Definition key_le {A} (a b : string * A) : Prop := String.leb a.1 b.1 = true.

#[global] Instance key_le_dec {A} (a b : string * A) : Decision (key_le a b).
Proof. unfold key_le. apply _. Defined.

Definition sort_keys {A} (l : list (string * A)) : list (string * A) :=
  merge_sort key_le l.

(** The members of a map under an element encoder, failing as soon as one
    element fails. *)
Definition map_members {A} (enc : Value -> option A) (m : gmap string Value)
  : option (list (string * A)) :=
  sort_keys <$>
    map_fold (fun k v acc => r ← acc; j ← enc v; Some ((k, j) :: r)) (Some []) m.

(** [json.Marshal] on a field value. *)
Fixpoint json_Value (v : Value) : option JSON :=
  match v with
  | VNil => Some JNull
  | VString s => Some (JStr s)
  | VMap m => JObj <$> map_members json_Value m
  | VOther _ j => j
  end.

Definition json_map (m : gmap string Value) : option JSON :=
  JObj <$> map_members json_Value m.

Fixpoint join_sp (l : list string) : string :=
  match l with
  | [] => ""
  | [x] => x
  | x :: rest => x +:+ " " +:+ join_sp rest
  end.

(** [%s] on a value nested in a map. *)
Fixpoint fmt_s_elem (v : Value) : string :=
  match v with
  | VNil => "<nil>"
  | VString s => s
  | VMap m =>
      "map[" +:+
      join_sp ((fun kv => kv.1 +:+ ":" +:+ kv.2) <$>
               default [] (map_members (fun x => Some (fmt_s_elem x)) m))
      +:+ "]"
  | VOther str _ => str
  end.

(** [fmt.Sprintf("%s", v)] on a field value. *)
Definition fmt_s (v : Value) : string :=
  match v with
  | VNil => "%!s(<nil>)"
  | _ => fmt_s_elem v
  end.

(** ** The record handed over by logrus *)

(** [logrus.Fields] *)
Abbreviation Fields := (gmap string Value).

Module logrus.
(** [logrus.Level] is a [uint32]; the levels are numbered from the
    most severe one. *)
Definition PanicLevel : N := 0%N.
Definition FatalLevel : N := 1%N.
Definition ErrorLevel : N := 2%N.
Definition WarnLevel : N := 3%N.
Definition InfoLevel : N := 4%N.
Definition DebugLevel : N := 5%N.
Definition TraceLevel : N := 6%N.

(** The fields of [logrus.Entry] the formatter reads.  [Data] is the
    content of the field map when [Format] is called. *)
Record Entry := {
  Data : Fields;
  Level : N;
  Message : string
}.
End logrus.

(** ** Severities and the wire structs *)

Abbreviation severity := string (only parsing).

Definition severityDebug : severity := "DEBUG".
Definition severityInfo : severity := "INFO".
Definition severityWarning : severity := "WARNING".
Definition severityError : severity := "ERROR".
Definition severityCritical : severity := "CRITICAL".
Definition severityAlert : severity := "ALERT".

Definition levelsToSeverity : gmap N severity :=
  {[ logrus.DebugLevel := severityDebug;
     logrus.InfoLevel := severityInfo;
     logrus.WarnLevel := severityWarning;
     logrus.ErrorLevel := severityError;
     logrus.FatalLevel := severityCritical;
     logrus.PanicLevel := severityAlert ]}.

Definition prefixTracerState : string := "ot-tracer-".
Definition fieldNameTraceID : string := prefixTracerState +:+ "traceid".
Definition fieldNameSpanID : string := prefixTracerState +:+ "spanid".

Record serviceContext := {
  sc_Service : string;
  sc_Version : string
}.

Record reportLocation := {
  FilePath : string;
  LineNumber : Z;
  FunctionName : string
}.

Record operation := {
  Id : string;
  Producer : string;
  First : option bool;
  Last : option bool
}.

Record sourceLocation := {
  File : string;
  Line : string;
  Function : string
}.

(** A Go map is a reference.  The only map object the formatter writes to
    is the record's field map, so the store is the content of that one
    object and [EntryData] is its address; [NilMap] is the nil map. *)
Inductive mapref := NilMap | EntryData.

Record context := {
  Data : mapref;
  ReportLocation : option reportLocation;
  HTTPRequest : Fields;
  User : string
}.

Record entry := {
  Timestamp : string;
  ServiceContext : option serviceContext;
  Message : string;
  Severity : severity;
  Context : option context;
  Trace : string;
  SpanID : string;
  SourceLocation : option sourceLocation;
  Operation : option operation
}.

(** ** Encoding with [omitempty] *)

Abbreviation members := (list (string * JSON)) (only parsing).

Definition member_string (name s : string) : members :=
  if decide (s = "") then [] else [(name, JStr s)].

Definition member_int (name : string) (n : Z) : members :=
  if decide (n = 0%Z) then [] else [(name, JNum (fmt_d n))].

Definition member_ptr {A} (name : string) (enc : A -> option JSON)
    (p : option A) : option members :=
  match p with
  | None => Some []
  | Some a => j ← enc a; Some [(name, j)]
  end.

Definition member_map (name : string) (m : Fields) : option members :=
  if decide (m = ∅) then Some [] else j ← json_map m; Some [(name, j)].

Definition json_serviceContext (sc : serviceContext) : option JSON :=
  Some (JObj (member_string "service" (sc_Service sc) ++
              member_string "version" (sc_Version sc))).

Definition json_reportLocation (r : reportLocation) : option JSON :=
  Some (JObj (member_string "filePath" (FilePath r) ++
              member_int "lineNumber" (LineNumber r) ++
              member_string "functionName" (FunctionName r))).

Definition json_operation (o : operation) : option JSON :=
  first ← member_ptr "first" (fun b => Some (JBool b)) (First o);
  last ← member_ptr "last" (fun b => Some (JBool b)) (Last o);
  Some (JObj (member_string "id" (Id o) ++
              member_string "producer" (Producer o) ++ first ++ last)).

Definition json_sourceLocation (l : sourceLocation) : option JSON :=
  Some (JObj (member_string "file" (File l) ++
              member_string "line" (Line l) ++
              member_string "function" (Function l))).

(** The content of the map a reference points to, in the store [h]. *)
Definition deref (h : Fields) (r : mapref) : Fields :=
  match r with NilMap => ∅ | EntryData => h end.

Definition json_context (h : Fields) (c : context) : option JSON :=
  data ← member_map "data" (deref h (Data c));
  loc ← member_ptr "reportLocation" json_reportLocation (ReportLocation c);
  req ← member_map "httpRequest" (HTTPRequest c);
  Some (JObj (data ++ loc ++ req ++ member_string "user" (User c))).

(** [json.Marshal(ee)] in the store [h]. *)
Definition json_entry (h : Fields) (ee : entry) : option JSON :=
  svc ← member_ptr "serviceContext" json_serviceContext (ServiceContext ee);
  ctx ← member_ptr "context" (json_context h) (Context ee);
  src ← member_ptr "sourceLocation" json_sourceLocation (SourceLocation ee);
  op ← member_ptr "operation" json_operation (Operation ee);
  Some (JObj (member_string "timestamp" (Timestamp ee) ++ svc ++
              member_string "message" (Message ee) ++
              member_string "severity" (Severity ee) ++ ctx ++
              member_string "logging.googleapis.com/trace" (Trace ee) ++
              member_string "logging.googleapis.com/span_id" (SpanID ee) ++
              src ++ op)).

(** ** Package variables and the surroundings of a call *)

Record Globals := {
  skipTimestamp : bool;
  DefaultSubjectKey : string;
  DefaultOperationIdKey : string
}.

(** The values the package variables are initialised with. *)
Definition initial_globals : Globals :=
  {| skipTimestamp := false;
     DefaultSubjectKey := "X-Subject-Id";
     DefaultOperationIdKey := "X-Request-Id" |}.

(** What a call of [Format] reads from outside its arguments: the call
    stack as [errorOrigin] sees it (element 0 is [errorOrigin] itself,
    element 1 is [Format]) and [time.Now().UTC().Format(time.RFC3339)]. *)
Record Env := {
  callers : list Call;
  now : string
}.

(** ** Statements on the field map *)

(** A computation that reads and writes the store. *)
Definition M (A : Type) : Type := Fields -> A * Fields.

#[global] Instance M_ret : MRet M := fun A a h => (a, h).
#[global] Instance M_bind : MBind M :=
  fun A B k c h => let '(a, h') := c h in k a h'.

(** [v, ok := m[key]] *)
Definition map_index (r : mapref) (key : string) : M (option Value) :=
  fun h => (deref h r !! key, h).

(** [delete(m, key)]; deleting from the nil map does nothing. *)
Definition map_delete (r : mapref) (key : string) : M unit :=
  fun h => (tt, match r with NilMap => h | EntryData => delete key h end).

Definition getStringValue (key : string) (context : mapref) : M string :=
  val ← map_index context key;
  match val with
  | Some (VString stringVal) => mret stringVal
  | _ => mret ""
  end.

(** ** Format *)

Definition with_Context (k : context -> context) (ee : entry) : entry :=
  {| Timestamp := Timestamp ee; ServiceContext := ServiceContext ee;
     Message := Message ee; Severity := Severity ee;
     Context := k <$> Context ee;
     Trace := Trace ee; SpanID := SpanID ee;
     SourceLocation := SourceLocation ee; Operation := Operation ee |}.

Definition set_Message (m : string) (ee : entry) : entry :=
  {| Timestamp := Timestamp ee; ServiceContext := ServiceContext ee;
     Message := m; Severity := Severity ee; Context := Context ee;
     Trace := Trace ee; SpanID := SpanID ee;
     SourceLocation := SourceLocation ee; Operation := Operation ee |}.

Definition set_Timestamp (t : string) (ee : entry) : entry :=
  {| Timestamp := t; ServiceContext := ServiceContext ee;
     Message := Message ee; Severity := Severity ee; Context := Context ee;
     Trace := Trace ee; SpanID := SpanID ee;
     SourceLocation := SourceLocation ee; Operation := Operation ee |}.

Definition set_ServiceContext (sc : serviceContext) (ee : entry) : entry :=
  {| Timestamp := Timestamp ee; ServiceContext := Some sc;
     Message := Message ee; Severity := Severity ee; Context := Context ee;
     Trace := Trace ee; SpanID := SpanID ee;
     SourceLocation := SourceLocation ee; Operation := Operation ee |}.

Definition set_SourceLocation (l : sourceLocation) (ee : entry) : entry :=
  {| Timestamp := Timestamp ee; ServiceContext := ServiceContext ee;
     Message := Message ee; Severity := Severity ee; Context := Context ee;
     Trace := Trace ee; SpanID := SpanID ee;
     SourceLocation := Some l; Operation := Operation ee |}.

Definition set_Operation (o : operation) (ee : entry) : entry :=
  {| Timestamp := Timestamp ee; ServiceContext := ServiceContext ee;
     Message := Message ee; Severity := Severity ee; Context := Context ee;
     Trace := Trace ee; SpanID := SpanID ee;
     SourceLocation := SourceLocation ee; Operation := Some o |}.

Definition set_Trace (t : string) (ee : entry) : entry :=
  {| Timestamp := Timestamp ee; ServiceContext := ServiceContext ee;
     Message := Message ee; Severity := Severity ee; Context := Context ee;
     Trace := t; SpanID := SpanID ee;
     SourceLocation := SourceLocation ee; Operation := Operation ee |}.

Definition set_SpanID (t : string) (ee : entry) : entry :=
  {| Timestamp := Timestamp ee; ServiceContext := ServiceContext ee;
     Message := Message ee; Severity := Severity ee; Context := Context ee;
     Trace := Trace ee; SpanID := t;
     SourceLocation := SourceLocation ee; Operation := Operation ee |}.

Definition set_HTTPRequest (req : Fields) (c : context) : context :=
  {| Data := Data c; ReportLocation := ReportLocation c;
     HTTPRequest := req; User := User c |}.

Definition set_User (u : string) (c : context) : context :=
  {| Data := Data c; ReportLocation := ReportLocation c;
     HTTPRequest := HTTPRequest c; User := u |}.

Definition set_ReportLocation (r : reportLocation) (c : context) : context :=
  {| Data := Data c; ReportLocation := Some r;
     HTTPRequest := HTTPRequest c; User := User c |}.

(** [ee.Context.Data]; the context is allocated at the start of [Format]. *)
Definition Context_Data (ee : entry) : mapref :=
  match Context ee with Some c => Data c | None => NilMap end.

(** The cases of the [switch] on the severity. *)
Definition error_tier (s : severity) : bool :=
  String.eqb s severityError || String.eqb s severityCritical
  || String.eqb s severityAlert.

(** The statement the formatter uses for the subject id, the operation
    id, the trace id and the span id (lines 208-211, 236-241, 244-247 and
    248-251): when [getStringValue] finds a non-empty string under [key],
    store it in the envelope with [set] and delete the key from the data. *)
Definition move_string (key : string) (set : string -> entry -> entry)
    (ee : entry) : M entry :=
  val ← getStringValue key (Context_Data ee);
  if negb (String.eqb val "") then
    _ ← map_delete (Context_Data ee) key;
    mret (set val ee)
  else mret ee.

(** Lines 166-251: the envelope [ee] as it is handed to [json.Marshal]. *)
Definition Format_entry (f : Formatter) (g : Globals) (env : Env)
    (e : logrus.Entry) : M entry :=
  let severity := default "" (levelsToSeverity !! logrus.Level e) in
  let ee :=
    {| Timestamp := ""; ServiceContext := None;
       Message := logrus.Message e; Severity := severity;
       Context := Some {| Data := EntryData; ReportLocation := None;
                          HTTPRequest := ∅; User := "" |};
       Trace := ""; SpanID := ""; SourceLocation := None;
       Operation := None |} in
  let ee := if skipTimestamp g then ee else set_Timestamp (now env) ee in
  ee ←
    (if error_tier severity then
       let ee := set_ServiceContext
                   {| sc_Service := Service f; sc_Version := Version f |} ee in
       err ← map_index (Context_Data ee) "error";
       ee ← match err with
            | Some err =>
                _ ← map_delete (Context_Data ee) "error";
                mret (set_Message
                        (logrus.Message e +:+ ": " +:+ fmt_s err) ee)
            | None => mret (set_Message (logrus.Message e) ee)
            end;
       reqData ← map_index (Context_Data ee) "httpRequest";
       ee ← match reqData with
            | Some (VMap req) =>
                _ ← map_delete (Context_Data ee) "httpRequest";
                mret (with_Context (set_HTTPRequest req) ee)
            | _ => mret ee
            end;
       ee ← move_string (DefaultSubjectKey g)
              (fun user => with_Context (set_User user)) ee;
       match errorOrigin f (callers env) with
       | (c, None) =>
           let lineNumber := (strconv_ParseInt (fmt_d_call c)).1 in
           mret (with_Context
                   (set_ReportLocation
                      {| FilePath := fmt_plus_s c;
                         LineNumber := lineNumber;
                         FunctionName := fmt_n c |}) ee)
       | (_, Some _) => mret ee
       end
     else
       match errorOrigin f (callers env) with
       | (c, None) =>
           let lineNumber := (strconv_ParseInt (fmt_d_call c)).1 in
           mret (set_SourceLocation
                   {| File := fmt_plus_s c;
                      Line := fmt_d lineNumber;
                      Function := fmt_n c |} ee)
       | (_, Some _) => mret ee
       end);
  ee ← move_string (DefaultOperationIdKey g)
         (fun operationId =>
            set_Operation {| Id := operationId; Producer := "";
                             First := None; Last := None |}) ee;
  ee ← move_string fieldNameTraceID set_Trace ee;
  ee ← move_string fieldNameSpanID set_SpanID ee;
  mret ee.

(** [Format]: the document whose encoding, followed by a newline, is
    returned ([None] when [json.Marshal] fails and the error is returned
    instead), and the content of the caller's field map after the call. *)
Definition Format (f : Formatter) (g : Globals) (env : Env)
    (e : logrus.Entry) : option JSON * Fields :=
  let '(ee, h) := Format_entry f g env e (logrus.Data e) in
  (json_entry h ee, h).

(** * Specification vocabulary *)

(** ** Occurrences of a separator *)

(** [sep] occurs in [s] at position [i]. *)
Definition occurs_at (sep s : string) (i : nat) : Prop :=
  ∃ p q, s = p +:+ sep +:+ q ∧ String.length p = i.

(** The vendoring marker of [errorOrigin]. *)
Definition vendor : string := "/vendor/".

(** The result in terms of the loop index: the walk stops at the first
    index, from 2 on, whose call is the zero call or lies in a package
    that is not skipped. *)
Definition stops_at (f : Formatter) (c : Call) : bool :=
  MarshalText_err c || negb (skip f (strip_vendor (fmt_plus_k c))).

(** ** Reading a document *)

(** The first member named [k]. *)
Fixpoint assoc {A} (k : string) (l : list (string * A)) : option A :=
  match l with
  | [] => None
  | (k', v) :: rest => if String.eqb k k' then Some v else assoc k rest
  end.

(** The member [k] of an object. *)
Definition jget (k : string) (j : JSON) : option JSON :=
  match j with
  | JObj ms => assoc k ms
  | _ => None
  end.

(** The value at a path of member names. *)
Fixpoint jpath (p : list string) (j : JSON) : option JSON :=
  match p with
  | [] => Some j
  | k :: p' => jget k j ≫= jpath p'
  end.

(** The encoding of a string member under [omitempty]. *)
Definition opt_string (s : string) : option JSON :=
  if decide (s = "") then None else Some (JStr s).

(** ** Encoding a map *)

(** What the fold of [map_members] has collected, before sorting. *)
Definition collected {A} (enc : Value -> option A) (m : Fields)
    (acc : option (list (string * A))) : Prop :=
  match acc with
  | Some r =>
      NoDup r.*1 ∧ (∀ k, assoc k r = m !! k ≫= enc) ∧
      ∀ k v, m !! k = Some v -> is_Some (enc v)
  | None => ∃ k v, m !! k = Some v ∧ enc v = None
  end.

(** Every value of the map can be encoded. *)
Definition encodable (m : Fields) : Prop :=
  ∀ k v, m !! k = Some v -> is_Some (json_Value v).

(** ** Closed forms of [Format] *)

(** [getStringValue] as a function of the map content. *)
Definition string_at (h : Fields) (key : string) : string :=
  match h !! key with
  | Some (VString s) => s
  | _ => ""
  end.

(** The map once [move_string] has run on [key]. *)
Definition drop_string (key : string) (h : Fields) : Fields :=
  if String.eqb (string_at h key) "" then h else delete key h.

(** The map once the [httpRequest] statement (lines 200-205) has run, and
    the request it found. *)
Definition drop_http (h : Fields) : Fields :=
  match h !! "httpRequest" with
  | Some (VMap _) => delete "httpRequest" h
  | _ => h
  end.

Definition http_of (h : Fields) : Fields :=
  match h !! "httpRequest" with
  | Some (VMap req) => req
  | _ => ∅
  end.

(** The severity [Format] computes for a record. *)
Definition severity_of (e : logrus.Entry) : string :=
  default "" (levelsToSeverity !! logrus.Level e).

(** The field map when the [switch] has run. *)
Definition store_after_switch (g : Globals) (e : logrus.Entry) : Fields :=
  if error_tier (severity_of e) then
    drop_string (DefaultSubjectKey g)
      (drop_http (delete "error" (logrus.Data e)))
  else logrus.Data e.

(** The field map when [Format] returns. *)
Definition store_after (g : Globals) (e : logrus.Entry) : Fields :=
  drop_string fieldNameSpanID
    (drop_string fieldNameTraceID
       (drop_string (DefaultOperationIdKey g) (store_after_switch g e))).

(** The envelope handed to [json.Marshal], field by field. *)
Definition envelope (f : Formatter) (g : Globals) (env : Env)
    (e : logrus.Entry) : entry :=
  let tier := error_tier (severity_of e) in
  let h0 := logrus.Data e in
  let h1 := delete "error" h0 in
  let h2 := drop_http h1 in
  let h4 := store_after_switch g e in
  let h5 := drop_string (DefaultOperationIdKey g) h4 in
  let h6 := drop_string fieldNameTraceID h5 in
  let c := (errorOrigin f (callers env)).1 in
  let lineNumber := (strconv_ParseInt (fmt_d_call c)).1 in
  {| Timestamp := if skipTimestamp g then "" else now env;
     ServiceContext :=
       if tier then Some {| sc_Service := Service f; sc_Version := Version f |}
       else None;
     Message :=
       if tier then
         match h0 !! "error" with
         | Some err => logrus.Message e +:+ ": " +:+ fmt_s err
         | None => logrus.Message e
         end
       else logrus.Message e;
     Severity := severity_of e;
     Context :=
       Some {| Data := EntryData;
               ReportLocation :=
                 if tier then
                   Some {| FilePath := fmt_plus_s c; LineNumber := lineNumber;
                           FunctionName := fmt_n c |}
                 else None;
               HTTPRequest := if tier then http_of h1 else ∅;
               User := if tier then string_at h2 (DefaultSubjectKey g) else "" |};
     Trace := string_at h5 fieldNameTraceID;
     SpanID := string_at h6 fieldNameSpanID;
     SourceLocation :=
       if tier then None
       else Some {| File := fmt_plus_s c; Line := fmt_d lineNumber;
                    Function := fmt_n c |};
     Operation :=
       if String.eqb (string_at h4 (DefaultOperationIdKey g)) "" then None
       else Some {| Id := string_at h4 (DefaultOperationIdKey g);
                    Producer := ""; First := None; Last := None |} |}.


(** ** Levels and keys *)

(** The levels whose severity is in the error tier, and the other mapped
    levels. *)
Definition error_level (l : N) : Prop :=
  l = logrus.ErrorLevel ∨ l = logrus.FatalLevel ∨ l = logrus.PanicLevel.

Definition sub_error_level (l : N) : Prop :=
  l = logrus.DebugLevel ∨ l = logrus.InfoLevel ∨ l = logrus.WarnLevel.

(** The keys [Format] treats specially, under the configuration [g]. *)
Definition special_keys (g : Globals) : list string :=
  ["error"; "httpRequest"; DefaultSubjectKey g; DefaultOperationIdKey g;
   fieldNameTraceID; fieldNameSpanID].

(** The configured keys collide neither with each other nor with the
    fixed ones. *)
Definition keys_distinct (g : Globals) : Prop := NoDup (special_keys g).

(** The value is not of type [map[string]interface{}], resp. [string]. *)
Definition not_a_map (v : Value) : Prop := ∀ m, v ≠ VMap m.

(** ** Sample inputs *)

(** The two innermost frames of any call of [errorOrigin]. *)
Definition frame_errorOrigin : Call :=
  Some {| frame_pkg := "github.com/connctd/logrus-stackdriver-formatter";
          frame_file := "github.com/connctd/logrus-stackdriver-formatter/formatter.go";
          frame_line := 149; frame_func := "(*Formatter).errorOrigin" |}.

Definition frame_Format : Call :=
  Some {| frame_pkg := "github.com/connctd/logrus-stackdriver-formatter";
          frame_file := "github.com/connctd/logrus-stackdriver-formatter/formatter.go";
          frame_line := 225; frame_func := "(*Formatter).Format" |}.

Definition frame_logrus : Call :=
  Some {| frame_pkg := "github.com/sirupsen/logrus";
          frame_file := "github.com/sirupsen/logrus/entry.go";
          frame_line := 255; frame_func := "(*Entry).log" |}.

(** The caller of the example test. *)
Definition frame_example : Frame :=
  {| frame_pkg := "github.com/connctd/logrus-stackdriver-formatter_test";
     frame_file := "github.com/connctd/logrus-stackdriver-formatter/example_test.go";
     frame_line := 19; frame_func := "ExampleLogError" |}.

Definition frame_main : Frame :=
  {| frame_pkg := "main"; frame_file := "main.go";
     frame_line := 12; frame_func := "main" |}.

Definition frame_runtime : Frame :=
  {| frame_pkg := "runtime"; frame_file := "runtime/proc.go";
     frame_line := 250; frame_func := "main" |}.


(** A library vendored once. *)
Definition frame_vendored_once : Frame :=
  {| frame_pkg := "app/vendor/lib";
     frame_file := "app/vendor/lib/handler.go";
     frame_line := 10; frame_func := "Handle" |}.

Definition callers_example : list Call :=
  [frame_errorOrigin; frame_Format; frame_logrus; Some frame_example].

Definition env_example : Env :=
  {| callers := callers_example; now := "2026-01-02T03:04:05Z" |}.

(** A stack whose frames all lie in skipped packages once [main] and
    [runtime] are skipped. *)
Definition callers_all_skipped : list Call :=
  [frame_errorOrigin; frame_Format; frame_logrus; Some frame_main;
   Some frame_runtime].

Definition formatter_skip_all : Formatter :=
  NewFormatter [WithStackSkip "main"; WithStackSkip "runtime"].

Definition formatter_test : Formatter :=
  NewFormatter [WithService "test"; WithVersion "0.1"].

Definition record (level : N) (message : string) (data : Fields)
  : logrus.Entry :=
  {| logrus.Data := data; logrus.Level := level; logrus.Message := message |}.

(** ** Option lists and record updates *)

(** The options a caller can build: the three constructors of the
    package and their arguments. *)
Inductive option_spec :=
| OptService (n : string)
| OptVersion (v : string)
| OptStackSkip (v : string).

Definition to_Option (o : option_spec) : Option :=
  match o with
  | OptService n => WithService n
  | OptVersion v => WithVersion v
  | OptStackSkip v => WithStackSkip v
  end.

Definition services_of (l : list option_spec) : list string :=
  omap (fun o => match o with OptService n => Some n | _ => None end) l.

Definition versions_of (l : list option_spec) : list string :=
  omap (fun o => match o with OptVersion v => Some v | _ => None end) l.

Definition skips_of (l : list option_spec) : list string :=
  omap (fun o => match o with OptStackSkip v => Some v | _ => None end) l.

(** The record with another field map, as a second call finds it. *)
Definition with_Data (h : Fields) (e : logrus.Entry) : logrus.Entry :=
  {| logrus.Data := h; logrus.Level := logrus.Level e;
     logrus.Message := logrus.Message e |}.

(** The names of the members of an object, in output order. *)
Definition member_names (j : JSON) : list string :=
  match j with
  | JObj ms => ms.*1
  | _ => []
  end.

(** The members of the envelope in the order of the struct. *)
Definition entry_member_order : list string :=
  ["timestamp"; "serviceContext"; "message"; "severity"; "context";
   "logging.googleapis.com/trace"; "logging.googleapis.com/span_id";
   "sourceLocation"; "operation"].

(** * Properties *)

(** ** Strings *)

Section strings_facts.
Implicit Types s t u a b sep : string.

#[local] Arguments String.append : simpl nomatch.

Lemma str_app_assoc s t u : (s +:+ t) +:+ u = s +:+ t +:+ u.
Proof. induction s as [|c s IH]; simpl; [done | by f_equal]. Qed.

Lemma str_length_app s t :
  String.length (s +:+ t) = String.length s + String.length t.
Proof. induction s as [|c s IH]; simpl; [done | by f_equal]. Qed.

Lemma prefix_app s t : String.prefix s (s +:+ t) = true.
Proof.
  induction s as [|c s IH]; simpl; [by destruct t |].
  destruct (Ascii.ascii_dec c c); [done | congruence].
Qed.

Lemma prefix_inv s t : String.prefix s t = true -> ∃ r, t = s +:+ r.
Proof.
  revert t. induction s as [|c s IH]; intros t H.
  - by exists t.
  - destruct t as [|d t]; simpl in H; [done |].
    destruct (Ascii.ascii_dec c d) as [->|]; [| done].
    destruct (IH _ H) as [r ->]. by exists r.
Qed.

Lemma str_take_app a t : str_take (String.length a) (a +:+ t) = a.
Proof. induction a as [|c a IH]; simpl; [done | by f_equal]. Qed.

Lemma str_drop_app a t : str_drop (String.length a) (a +:+ t) = t.
Proof. induction a as [|c a IH]; simpl; done. Qed.

Lemma str_drop_add n m s : str_drop (n + m) s = str_drop m (str_drop n s).
Proof.
  revert s. induction n as [|n IH]; intros s; simpl; [done |].
  destruct s; [by destruct m | apply IH].
Qed.

Lemma occurs_at_0 sep s : occurs_at sep s 0 ↔ String.prefix sep s = true.
Proof.
  split.
  - intros ([|c p] & q & -> & Hp); [simpl; apply prefix_app | done].
  - intros [r ->]%prefix_inv. by exists "", r.
Qed.

Lemma occurs_at_S sep c s i :
  occurs_at sep (String c s) (S i) ↔ occurs_at sep s i.
Proof.
  split.
  - intros ([|d p] & q & Heq & Hp); [done |].
    simpl in Heq, Hp. injection Heq as -> ->. exists p, q. split; [done | lia].
  - intros (p & q & -> & Hp). exists (String c p), q. simpl. by rewrite Hp.
Qed.

Lemma strings_Index_nil sep :
  strings_Index "" sep = if String.prefix sep "" then Some 0 else None.
Proof. done. Qed.

Lemma strings_Index_cons c s sep :
  strings_Index (String c s) sep =
  if String.prefix sep (String c s) then Some 0 else S <$> strings_Index s sep.
Proof. done. Qed.

(** [strings.Index] returns the first position at which [sep] occurs. *)
Lemma strings_Index_Some s sep i :
  strings_Index s sep = Some i ↔
  occurs_at sep s i ∧ ∀ j, occurs_at sep s j -> (i <= j)%nat.
Proof.
  revert i. induction s as [|c s IH]; intros i;
    [rewrite strings_Index_nil | rewrite strings_Index_cons].
  - destruct (String.prefix sep "") eqn:Hp.
    + split.
      * intros [= <-]. split; [by apply occurs_at_0 | lia].
      * intros [_ Hmin]. f_equal. apply occurs_at_0 in Hp.
        specialize (Hmin _ Hp). lia.
    + split; [done |]. intros [(p & q & Heq & Hlen) _].
      destruct p; [| done]. subst i.
      assert (occurs_at sep "" 0) as H0 by (by exists "", q).
      apply occurs_at_0 in H0. congruence.
  - destruct (String.prefix sep (String c s)) eqn:Hp.
    + split.
      * intros [= <-]. split; [by apply occurs_at_0 | lia].
      * intros [_ Hmin]. f_equal. apply occurs_at_0 in Hp.
        specialize (Hmin _ Hp). lia.
    + destruct i as [|i].
      * split.
        -- destruct (strings_Index s sep); done.
        -- intros [H0 _]. apply occurs_at_0 in H0. congruence.
      * transitivity (strings_Index s sep = Some i).
        { destruct (strings_Index s sep); simpl; split; intros; congruence. }
        rewrite IH. split.
        -- intros [Hi Hmin]. split; [by apply occurs_at_S |].
           intros [|j] Hj.
           ++ apply occurs_at_0 in Hj. congruence.
           ++ apply occurs_at_S in Hj. specialize (Hmin _ Hj). lia.
        -- intros [Hi Hmin]. split; [by apply occurs_at_S in Hi |].
           intros j Hj. apply (occurs_at_S sep c) in Hj.
           specialize (Hmin _ Hj). lia.
Qed.

Lemma strings_Index_None s sep :
  strings_Index s sep = None ↔ ∀ i, ¬ occurs_at sep s i.
Proof.
  induction s as [|c s IH];
    [rewrite strings_Index_nil | rewrite strings_Index_cons].
  - destruct (String.prefix sep "") eqn:Hp.
    + split; [done |]. intros H. apply occurs_at_0 in Hp. by apply H in Hp.
    + split; [| done]. intros _ i (p & q & Heq & Hlen).
      destruct p; [| done].
      assert (occurs_at sep "" 0) as H0 by (by exists "", q).
      apply occurs_at_0 in H0. congruence.
  - destruct (String.prefix sep (String c s)) eqn:Hp.
    + split; [done |]. intros H. apply occurs_at_0 in Hp. by apply H in Hp.
    + transitivity (strings_Index s sep = None).
      { destruct (strings_Index s sep); simpl; split; intros; congruence. }
      rewrite IH. split.
      * intros H [|i] Hi.
        -- apply occurs_at_0 in Hi. congruence.
        -- apply occurs_at_S in Hi. by apply H in Hi.
      * intros H i Hi. apply (occurs_at_S sep c) in Hi. by apply H in Hi.
Qed.
End strings_facts.

(** ** Vendoring and the stack walk *)

(** Splitting at most once leaves the text after the first marker. *)
Lemma strip_vendor_first a b :
  (∀ p q, a +:+ vendor +:+ b = p +:+ vendor +:+ q ->
          (String.length a <= String.length p)%nat) ->
  strip_vendor (a +:+ vendor +:+ b) = b.
Proof.
  intros Hfirst. unfold strip_vendor, strings_SplitN.
  assert (strings_Index (a +:+ vendor +:+ b) vendor = Some (String.length a))
    as Hidx.
  { apply strings_Index_Some. split; [by exists a, b |].
    intros j (p & q & Heq & <-). by apply (Hfirst p q). }
  replace (2 `min` (String.length (a +:+ vendor +:+ b) + 1)) with 2
    by (rewrite !str_length_app; unfold vendor; simpl String.length; lia).
  unfold genSplit. fold vendor. rewrite Hidx. simpl.
  change 8 with (String.length vendor).
  by rewrite str_drop_add, str_drop_app, (str_drop_app vendor b).
Qed.

(** A path without the marker is compared as it is. *)
Lemma strip_vendor_none pkg :
  (∀ i, ¬ occurs_at vendor pkg i) -> strip_vendor pkg = pkg.
Proof.
  intros Hno%strings_Index_None. unfold strip_vendor, strings_SplitN.
  destruct (String.length pkg) as [|n]; [done |].
  replace (2 `min` (S n + 1)) with 2 by lia.
  simpl. fold vendor. by rewrite Hno.
Qed.

Lemma skip_in_elem skips pkg : skip_in skips pkg = true ↔ pkg ∈ skips.
Proof.
  induction skips as [|x skips IH]; simpl.
  - split; [done | by intros ?%elem_of_nil].
  - rewrite elem_of_cons, <- IH.
    destruct (String.eqb_spec pkg x); split; auto. by intros [|].
Qed.

(** [errorOrigin] never returns an error. *)
Lemma errorOrigin_from_err f frames : (errorOrigin_from f frames).2 = None.
Proof.
  induction frames as [|c rest IH]; simpl; [done |].
  destruct c; simpl; [| done]. by destruct (negb _).
Qed.

Lemma errorOrigin_err f st : (errorOrigin f st).2 = None.
Proof. apply errorOrigin_from_err. Qed.

Lemma errorOrigin_pair f st : errorOrigin f st = ((errorOrigin f st).1, None).
Proof. rewrite <- (errorOrigin_err f st). by destruct (errorOrigin f st). Qed.

Lemma errorOrigin_from_index f frames :
  ∃ n, stops_at f (default None (frames !! n)) = true ∧
       (∀ m, (m < n)%nat -> stops_at f (default None (frames !! m)) = false) ∧
       (errorOrigin_from f frames).1 =
         (if MarshalText_err (default None (frames !! n)) then None
          else default None (frames !! n)).
Proof.
  induction frames as [|c rest IH].
  - exists 0. simpl. split; [done |]. split; [lia | done].
  - destruct (stops_at f c) eqn:Hstop.
    + exists 0. simpl. split; [done |]. split; [lia |].
      unfold stops_at in Hstop. destruct (MarshalText_err c); [done |].
      simpl in Hstop. by rewrite Hstop.
    + destruct IH as (n & Hn & Hlt & Heq). exists (S n). simpl.
      split; [done |]. split.
      * intros [|m] Hm; [done |]. apply Hlt. lia.
      * unfold stops_at in Hstop. apply orb_false_iff in Hstop as [-> ->].
        done.
Qed.

Lemma errorOrigin_index f st :
  ∃ i, (2 <= i)%nat ∧ stops_at f (stack_Caller st i) = true ∧
       (∀ j, (2 <= j < i)%nat -> stops_at f (stack_Caller st j) = false) ∧
       (errorOrigin f st).1 =
         (if MarshalText_err (stack_Caller st i) then None
          else stack_Caller st i).
Proof.
  destruct (errorOrigin_from_index f (drop 2 st)) as (n & Hn & Hlt & Heq).
  exists (2 + n). unfold stack_Caller, errorOrigin.
  rewrite lookup_drop in Hn, Heq. split; [lia |]. split; [done |].
  split; [| done]. intros j Hj.
  specialize (Hlt (j - 2)). rewrite lookup_drop in Hlt.
  replace (2 + (j - 2)) with j in Hlt by lia. apply Hlt. lia.
Qed.

(** ** What a call of [Format] leaves in the envelope and in the store *)

Lemma bind_run {A B} (c : M A) (k : A -> M B) h :
  (c ≫= k) h = k (c h).1 (c h).2.
Proof. unfold mbind, M_bind. by destruct (c h). Qed.

Lemma getStringValue_run key h :
  getStringValue key EntryData h = (string_at h key, h).
Proof.
  unfold getStringValue, string_at. rewrite bind_run. simpl.
  by destruct (h !! key) as [[]|].
Qed.

Lemma move_string_run key set ee h :
  Context_Data ee = EntryData ->
  move_string key set ee h =
  (if String.eqb (string_at h key) "" then ee else set (string_at h key) ee,
   drop_string key h).
Proof.
  intros Hctx. unfold move_string, drop_string.
  rewrite bind_run, Hctx, getStringValue_run. simpl.
  by destruct (String.eqb (string_at h key) "").
Qed.

Lemma string_at_empty_eq h key s :
  String.eqb (string_at h key) "" = false -> string_at h key = s ->
  h !! key = Some (VString s).
Proof.
  unfold string_at. intros Hne <-.
  by destruct (h !! key) as [[]|].
Qed.

(** Unfolding the statements of the store monad, one step of [Format]. *)
Ltac run_go :=
  unfold mbind, M_bind, mret, M_ret, map_index, map_delete;
  cbn [deref Context_Data Context
     set_ServiceContext set_Timestamp set_Message with_Context set_HTTPRequest
     set_User set_ReportLocation set_SourceLocation set_Operation set_Trace
     set_SpanID fmap option_fmap option_map fst snd
     Timestamp ServiceContext Message Severity Trace SpanID SourceLocation
     Operation Data ReportLocation HTTPRequest User].

(** The monadic code computes the envelope and the store given above. *)
Lemma Format_entry_run f g env e :
  Format_entry f g env e (logrus.Data e) = (envelope f g env e, store_after g e).
Proof.
  unfold Format_entry, envelope, store_after, store_after_switch.
  fold (severity_of e).
  rewrite (errorOrigin_pair f (callers env)).
  destruct (skipTimestamp g), (error_tier (severity_of e)).
  1,3: unfold drop_http, http_of;
    (destruct (logrus.Data e !! "error") as [err|] eqn:Herr;
      [| rewrite (delete_id (logrus.Data e) "error") by done]);
    run_go; rewrite ?Herr;
    destruct (_ !! "httpRequest") as [[]|]; run_go.
  all: run_go.
  all: rewrite move_string_run by reflexivity; run_go.
  all: rewrite move_string_run by (by repeat case_match); run_go.
  all: rewrite move_string_run by (by repeat case_match); run_go.
  all: try (rewrite move_string_run by (by repeat case_match); run_go).
  all: repeat match goal with
       | |- context [String.eqb ?x ""] =>
           let H := fresh in
           destruct (String.eqb_spec x "") as [H|H]; [try rewrite H |]
       end; first [reflexivity | done].
Qed.

(** [Format] through the closed forms. *)
Lemma Format_eq f g env e :
  Format f g env e =
  (json_entry (store_after g e) (envelope f g env e), store_after g e).
Proof. unfold Format. by rewrite Format_entry_run. Qed.

(** ** Members of the encoded envelope *)

Lemma assoc_app {A} k (l1 l2 : list (string * A)) :
  assoc k (l1 ++ l2) =
  match assoc k l1 with Some v => Some v | None => assoc k l2 end.
Proof.
  induction l1 as [|[k' v] l1 IH]; simpl; [done |].
  by destruct (String.eqb k k').
Qed.

Lemma assoc_member_string k name s :
  assoc k (member_string name s) =
  if String.eqb k name then opt_string s else None.
Proof.
  unfold member_string, opt_string.
  destruct (decide (s = "")); simpl; by destruct (String.eqb k name).
Qed.

Lemma assoc_member_int k name n :
  assoc k (member_int name n) =
  if String.eqb k name then
    (if decide (n = 0%Z) then None else Some (JNum (fmt_d n)))
  else None.
Proof.
  unfold member_int.
  destruct (decide (n = 0%Z)); simpl; by destruct (String.eqb k name).
Qed.

Lemma assoc_member_ptr {A} k name (enc : A -> option JSON) p ms :
  member_ptr name enc p = Some ms ->
  assoc k ms = if String.eqb k name then p ≫= enc else None.
Proof.
  unfold member_ptr. destruct p as [a|]; simpl.
  - destruct (enc a) as [j|]; simpl; [| done]. intros [= <-]. simpl.
    by destruct (String.eqb k name).
  - intros [= <-]. simpl. by destruct (String.eqb k name).
Qed.

Lemma assoc_member_map k name m ms :
  member_map name m = Some ms ->
  assoc k ms =
  if String.eqb k name then (if decide (m = ∅) then None else json_map m)
  else None.
Proof.
  unfold member_map. destruct (decide (m = ∅)).
  - intros [= <-]. simpl. by destruct (String.eqb k name).
  - destruct (json_map m) as [j|]; simpl; [| done]. intros [= <-]. simpl.
    by destruct (String.eqb k name).
Qed.

(** Comparing two literal member names. *)
Ltac names := cbn [String.eqb Ascii.eqb Bool.eqb].

(** [json.Marshal(ee)], member by member: a member is present exactly
    when its field is not the zero value of its type. *)
Lemma json_entry_members h ee doc :
  json_entry h ee = Some doc ->
  jget "timestamp" doc = opt_string (Timestamp ee) ∧
  jget "serviceContext" doc = ServiceContext ee ≫= json_serviceContext ∧
  jget "message" doc = opt_string (Message ee) ∧
  jget "severity" doc = opt_string (Severity ee) ∧
  jget "context" doc = Context ee ≫= json_context h ∧
  jget "logging.googleapis.com/trace" doc = opt_string (Trace ee) ∧
  jget "logging.googleapis.com/span_id" doc = opt_string (SpanID ee) ∧
  jget "sourceLocation" doc = SourceLocation ee ≫= json_sourceLocation ∧
  jget "operation" doc = Operation ee ≫= json_operation.
Proof.
  unfold json_entry. intros H.
  destruct (member_ptr "serviceContext" _ _) as [svc|] eqn:Hsvc; [| done].
  destruct (member_ptr "context" _ _) as [ctx|] eqn:Hctx; [| done].
  destruct (member_ptr "sourceLocation" _ _) as [src|] eqn:Hsrc; [| done].
  destruct (member_ptr "operation" _ _) as [op|] eqn:Hop; [| done].
  simpl in H. injection H as <-. unfold jget.
  repeat split;
    rewrite !assoc_app, !assoc_member_string,
      (assoc_member_ptr _ _ _ _ _ Hsvc), (assoc_member_ptr _ _ _ _ _ Hctx),
      (assoc_member_ptr _ _ _ _ _ Hsrc), (assoc_member_ptr _ _ _ _ _ Hop);
    names; repeat case_match; done.
Qed.

(** [json.Marshal] fails on the envelope exactly when it fails on the
    data or on the request. *)
Lemma json_entry_is_Some h ee c :
  Context ee = Some c ->
  (deref h (Data c) = ∅ ∨ is_Some (json_map (deref h (Data c)))) ->
  (HTTPRequest c = ∅ ∨ is_Some (json_map (HTTPRequest c))) ->
  is_Some (json_entry h ee).
Proof.
  intros Hc Hdata Hreq. unfold json_entry. rewrite Hc.
  assert (is_Some (json_context h c)) as [j Hj].
  { unfold json_context.
    assert (is_Some (member_map "data" (deref h (Data c)))) as [d ->].
    { unfold member_map. case_decide; [done |].
      destruct Hdata as [|[j ->]]; done. }
    assert (is_Some (member_map "httpRequest" (HTTPRequest c))) as [r ->].
    { unfold member_map. case_decide; [done |].
      destruct Hreq as [|[j ->]]; done. }
    simpl. by destruct (ReportLocation c). }
  destruct (ServiceContext ee), (SourceLocation ee); simpl; rewrite Hj; simpl;
    destruct (Operation ee) as [[? ? [] []]|]; done.
Qed.

Lemma json_context_members h c j :
  json_context h c = Some j ->
  jget "data" j =
    (if decide (deref h (Data c) = ∅) then None
     else json_map (deref h (Data c))) ∧
  jget "reportLocation" j = ReportLocation c ≫= json_reportLocation ∧
  jget "httpRequest" j =
    (if decide (HTTPRequest c = ∅) then None else json_map (HTTPRequest c)) ∧
  jget "user" j = opt_string (User c).
Proof.
  unfold json_context. intros H.
  destruct (member_map "data" _) as [data|] eqn:Hdata; [| done].
  destruct (member_ptr "reportLocation" _ _) as [loc|] eqn:Hloc; [| done].
  destruct (member_map "httpRequest" _) as [req|] eqn:Hreq; [| done].
  simpl in H. injection H as <-. unfold jget.
  repeat split;
    rewrite !assoc_app, !assoc_member_string,
      (assoc_member_map _ _ _ _ Hdata), (assoc_member_ptr _ _ _ _ _ Hloc),
      (assoc_member_map _ _ _ _ Hreq);
    names; repeat case_match; done.
Qed.

(** ** Members of an encoded map *)

Lemma assoc_None {A} k (l : list (string * A)) :
  assoc k l = None ↔ k ∉ l.*1.
Proof.
  induction l as [|[k' v] l IH]; simpl.
  - split; [intros _ ?%elem_of_nil; done | done].
  - rewrite not_elem_of_cons, <- IH.
    destruct (String.eqb_spec k k'); split; try done; by intros [].
Qed.

Lemma assoc_Some {A} k v (l : list (string * A)) :
  NoDup l.*1 -> assoc k l = Some v ↔ (k, v) ∈ l.
Proof.
  induction l as [|[k' v'] l IH]; simpl; intros Hnd.
  - split; [done | by intros ?%elem_of_nil].
  - apply NoDup_cons in Hnd as [Hk' Hnd]. rewrite elem_of_cons.
    destruct (String.eqb_spec k k') as [->|Hne].
    + split; [by intros [= ->]; left |].
      intros [[= ->]|Hin]; [done |].
      destruct Hk'. apply list_elem_of_fmap. by exists (k', v).
    + rewrite IH by done. split; [by right |]. by intros [[= -> ->]|].
Qed.

Lemma assoc_Permutation {A} k (l l' : list (string * A)) :
  NoDup l.*1 -> l ≡ₚ l' -> assoc k l = assoc k l'.
Proof.
  intros Hnd Hperm. apply option_eq. intros v.
  rewrite !assoc_Some; [by rewrite Hperm | by rewrite <- Hperm | done].
Qed.

Lemma map_members_collected {A} (enc : Value -> option A) (m : Fields) :
  collected enc m
    (map_fold (fun k v acc => r ← acc; j ← enc v; Some ((k, j) :: r))
       (Some []) m).
Proof.
  apply (map_fold_weak_ind (fun acc m => collected enc m acc)).
  - split; [constructor | done].
  - intros i x m' [r|] Hi IH; simpl in *.
    + destruct IH as (Hnd & Hassoc & Henc).
      destruct (enc x) as [j|] eqn:Hx; simpl.
      * split; [| split].
        -- constructor; [| done]. apply assoc_None. by rewrite Hassoc, Hi.
        -- intros k. destruct (String.eqb_spec k i) as [->|Hne].
           ++ by rewrite lookup_insert_eq.
           ++ by rewrite lookup_insert_ne.
        -- intros k v. destruct (decide (i = k)) as [->|Hne].
           ++ rewrite lookup_insert_eq. intros [= <-]. by rewrite Hx.
           ++ rewrite lookup_insert_ne by done. apply Henc.
      * exists i, x. by rewrite lookup_insert_eq.
    + destruct IH as (k & v & Hk & Hv). exists k, v. split; [| done].
      rewrite lookup_insert_ne; [done | congruence].
Qed.

(** An encoded map has one member per key, holding the encoding of the
    value, and encoding fails exactly when it fails on some value. *)
Lemma map_members_Some {A} (enc : Value -> option A) m l :
  map_members enc m = Some l -> ∀ k, assoc k l = m !! k ≫= enc.
Proof.
  unfold map_members. intros H k.
  pose proof (map_members_collected enc m) as Hc.
  destruct (map_fold _ _ m) as [r|]; [| done].
  simpl in H. injection H as <-. destruct Hc as (Hnd & Hassoc & _).
  rewrite <- Hassoc. unfold sort_keys. apply assoc_Permutation.
  - by rewrite merge_sort_Permutation.
  - apply merge_sort_Permutation.
Qed.

Lemma map_members_None {A} (enc : Value -> option A) m :
  map_members enc m = None -> ∃ k v, m !! k = Some v ∧ enc v = None.
Proof.
  unfold map_members. intros H.
  pose proof (map_members_collected enc m) as Hc.
  by destruct (map_fold _ _ m) as [r|].
Qed.

Lemma json_map_lookup m j k :
  json_map m = Some j -> jget k j = m !! k ≫= json_Value.
Proof.
  unfold json_map. destruct (map_members json_Value m) as [l|] eqn:Hl; [| done].
  intros [= <-]. simpl. by apply map_members_Some.
Qed.

Lemma json_map_is_Some m : encodable m -> is_Some (json_map m).
Proof.
  intros Hm. unfold json_map.
  destruct (map_members json_Value m) as [l|] eqn:Hl; [done |].
  apply map_members_None in Hl as (k & v & Hk & Hv).
  destruct (Hm k v Hk) as [j Hj]. congruence.
Qed.

Lemma json_map_encodable m j : json_map m = Some j -> encodable m.
Proof.
  unfold json_map, map_members. intros Hj.
  pose proof (map_members_collected json_Value m) as Hc.
  destruct (map_fold _ _ m) as [r|]; [| done].
  by destruct Hc as (_ & _ & Henc).
Qed.

(** ** The field map after the call *)

Lemma string_at_Some h key s : h !! key = Some (VString s) -> string_at h key = s.
Proof. unfold string_at. by intros ->. Qed.


Lemma lookup_drop_string_ne k key h :
  k ≠ key -> drop_string k h !! key = h !! key.
Proof.
  intros Hne. unfold drop_string.
  destruct (String.eqb _ _); [done | by rewrite lookup_delete_ne].
Qed.

Lemma lookup_drop_string_eq k h s :
  h !! k = Some (VString s) -> s ≠ "" -> drop_string k h !! k = None.
Proof.
  intros Hk Hs. unfold drop_string. rewrite (string_at_Some _ _ _ Hk).
  destruct (String.eqb_spec s ""); [done | by rewrite lookup_delete_eq].
Qed.

(** A value that is not a non-empty string stays where it is. *)
Lemma lookup_drop_string_keep k key h v :
  h !! key = Some v -> (∀ s, v = VString s -> s = "") ->
  drop_string k h !! key = Some v.
Proof.
  intros Hkey Hv. destruct (decide (k = key)) as [->|Hne].
  - unfold drop_string, string_at. rewrite Hkey.
    destruct v as [|s| |]; simpl; try done.
    pose proof (Hv s eq_refl) as ->. done.
  - by rewrite lookup_drop_string_ne.
Qed.

Lemma lookup_drop_http_ne key h :
  key ≠ "httpRequest" -> drop_http h !! key = h !! key.
Proof.
  intros Hne. unfold drop_http.
  destruct (h !! "httpRequest") as [[]|]; try done.
  by rewrite lookup_delete_ne.
Qed.

Lemma lookup_drop_http_keep key h v :
  h !! key = Some v -> not_a_map v -> drop_http h !! key = Some v.
Proof.
  intros Hkey Hv. destruct (decide (key = "httpRequest")) as [->|Hne].
  - unfold drop_http. rewrite Hkey. destruct v; try done. by destruct (Hv m).
  - by rewrite lookup_drop_http_ne.
Qed.

Lemma drop_string_subseteq k h : drop_string k h ⊆ h.
Proof. unfold drop_string. destruct (String.eqb _ _); [done | apply delete_subseteq]. Qed.

Lemma drop_http_subseteq h : drop_http h ⊆ h.
Proof.
  unfold drop_http. destruct (h !! "httpRequest") as [[]|]; try done.
  apply delete_subseteq.
Qed.

Lemma store_after_switch_subseteq g e : store_after_switch g e ⊆ logrus.Data e.
Proof.
  unfold store_after_switch. destruct (error_tier _); [| done].
  etrans; [apply drop_string_subseteq |].
  etrans; [apply drop_http_subseteq | apply delete_subseteq].
Qed.

Lemma store_after_subseteq g e : store_after g e ⊆ logrus.Data e.
Proof.
  unfold store_after. do 3 (etrans; [apply drop_string_subseteq |]).
  apply store_after_switch_subseteq.
Qed.


(** After an error-tier call the key [error] is gone. *)
Lemma store_after_error_gone g e :
  error_tier (severity_of e) = true -> store_after g e !! "error" = None.
Proof.
  intros Htier.
  apply (lookup_weaken_None _ (delete "error" (logrus.Data e)));
    [apply lookup_delete_eq |].
  unfold store_after, store_after_switch. rewrite Htier.
  do 4 (etrans; [apply drop_string_subseteq |]).
  apply drop_http_subseteq.
Qed.

Lemma encodable_empty : encodable ∅.
Proof. intros k v Hk. by rewrite lookup_empty in Hk. Qed.


(** ** Levels and severities *)

Lemma levelsToSeverity_lookup l :
  levelsToSeverity !! l =
  if decide (l = logrus.DebugLevel) then Some severityDebug
  else if decide (l = logrus.InfoLevel) then Some severityInfo
  else if decide (l = logrus.WarnLevel) then Some severityWarning
  else if decide (l = logrus.ErrorLevel) then Some severityError
  else if decide (l = logrus.FatalLevel) then Some severityCritical
  else if decide (l = logrus.PanicLevel) then Some severityAlert
  else None.
Proof.
  unfold levelsToSeverity.
  repeat (case_decide; [subst; by rewrite ?lookup_insert_eq, ?lookup_insert_ne by done |];
          rewrite lookup_insert_ne by done).
  case_decide; [subst; by rewrite lookup_singleton_eq |].
  by rewrite lookup_singleton_ne.
Qed.

Lemma error_tier_level e :
  error_tier (severity_of e) = true ↔ error_level (logrus.Level e).
Proof.
  unfold severity_of, error_level. rewrite levelsToSeverity_lookup.
  unfold logrus.DebugLevel, logrus.InfoLevel, logrus.WarnLevel,
    logrus.ErrorLevel, logrus.FatalLevel, logrus.PanicLevel.
  repeat case_decide; subst; cbv [default error_tier];
    (split; [first [discriminate | tauto] | intros [|[|]]; first [done | lia]]).
Qed.

Lemma sub_error_level_tier e :
  sub_error_level (logrus.Level e) -> error_tier (severity_of e) = false.
Proof.
  unfold severity_of, sub_error_level. rewrite levelsToSeverity_lookup.
  intros [-> | [-> | ->]]; done.
Qed.

Lemma unmapped_level_severity e :
  (5 < logrus.Level e)%N -> severity_of e = "".
Proof.
  unfold severity_of. rewrite levelsToSeverity_lookup.
  unfold logrus.DebugLevel, logrus.InfoLevel, logrus.WarnLevel,
    logrus.ErrorLevel, logrus.FatalLevel, logrus.PanicLevel.
  intros Hl. repeat case_decide; try done; lia.
Qed.

(** ** The document [Format] returns *)

Lemma jpath_one k j : jpath [k] j = jget k j.
Proof. simpl. by destruct (jget k j). Qed.

Lemma jpath_cons k p j : jpath (k :: p) j = jget k j ≫= jpath p.
Proof. done. Qed.

Lemma Format_inv f g env e doc h' :
  Format f g env e = (Some doc, h') ->
  h' = store_after g e ∧
  json_entry (store_after g e) (envelope f g env e) = Some doc.
Proof. rewrite Format_eq. by intros [= -> <-]. Qed.

Lemma json_entry_context h ee doc c :
  json_entry h ee = Some doc -> Context ee = Some c ->
  ∃ cj, json_context h c = Some cj ∧ jget "context" doc = Some cj.
Proof.
  intros Hdoc Hc.
  destruct (json_entry_members _ _ _ Hdoc) as (_ & _ & _ & _ & Hctx & _).
  rewrite Hc in Hctx. simpl in Hctx.
  unfold json_entry in Hdoc. rewrite Hc in Hdoc.
  destruct (member_ptr "serviceContext" _ _); [| done]. simpl in Hdoc.
  destruct (json_context h c) as [cj|]; [by exists cj | done].
Qed.

Lemma json_context_data h c cj k :
  json_context h c = Some cj ->
  jpath ["data"; k] cj = deref h (Data c) !! k ≫= json_Value.
Proof.
  intros Hcj. rewrite jpath_cons.
  destruct (json_context_members _ _ _ Hcj) as (Hdata & _).
  rewrite Hdata. case_decide as Hempty.
  - by rewrite Hempty, lookup_empty.
  - unfold json_context in Hcj.
    destruct (member_map "data" _) as [data|] eqn:Hmem; [| done].
    unfold member_map in Hmem. rewrite decide_False in Hmem by done.
    destruct (json_map (deref h (Data c))) as [j|] eqn:Hj; [| done].
    change (Some j ≫= jpath [k]) with (jpath [k] j).
    rewrite jpath_one. by apply json_map_lookup.
Qed.

(** The context of the envelope is always allocated. *)
Lemma envelope_Context f g env e :
  ∃ c, Context (envelope f g env e) = Some c ∧ Data c = EntryData ∧
       ReportLocation c =
         (if error_tier (severity_of e) then
            Some {| FilePath := fmt_plus_s (errorOrigin f (callers env)).1;
                    LineNumber :=
                      (strconv_ParseInt
                         (fmt_d_call (errorOrigin f (callers env)).1)).1;
                    FunctionName := fmt_n (errorOrigin f (callers env)).1 |}
          else None) ∧
       HTTPRequest c =
         (if error_tier (severity_of e) then
            http_of (delete "error" (logrus.Data e))
          else ∅) ∧
       User c =
         (if error_tier (severity_of e) then
            string_at (drop_http (delete "error" (logrus.Data e)))
              (DefaultSubjectKey g)
          else "").
Proof. eexists. by repeat split. Qed.

(** The members of the returned document that hold the context. *)
Lemma Format_context f g env e doc h' :
  Format f g env e = (Some doc, h') ->
  ∃ c cj, Context (envelope f g env e) = Some c ∧
          json_context (store_after g e) c = Some cj ∧
          jget "context" doc = Some cj.
Proof.
  intros (-> & Hdoc)%Format_inv.
  destruct (envelope_Context f g env e) as (c & Hc & _).
  destruct (json_entry_context _ _ _ _ Hdoc Hc) as (cj & Hcj & Hget).
  by exists c, cj.
Qed.

(** [context.data] of the returned document is the field map as the call
    leaves it. *)
Lemma Format_data f g env e doc h' k :
  Format f g env e = (Some doc, h') ->
  jpath ["context"; "data"; k] doc = h' !! k ≫= json_Value.
Proof.
  intros HF. destruct (Format_context _ _ _ _ _ _ HF) as (c & cj & Hc & Hcj & Hget).
  apply Format_inv in HF as (-> & _).
  rewrite jpath_cons, Hget.
  destruct (envelope_Context f g env e) as (c' & Hc' & Hdata & _).
  assert (c' = c) as -> by congruence.
  change (Some cj ≫= jpath ["data"; k]) with (jpath ["data"; k] cj).
  rewrite (json_context_data _ _ _ k Hcj). by rewrite Hdata.
Qed.

(** The other members of the context. *)
Lemma Format_context_members f g env e doc h' :
  Format f g env e = (Some doc, h') ->
  jpath ["context"; "reportLocation"] doc =
    (if error_tier (severity_of e) then
       json_reportLocation
         {| FilePath := fmt_plus_s (errorOrigin f (callers env)).1;
            LineNumber :=
              (strconv_ParseInt
                 (fmt_d_call (errorOrigin f (callers env)).1)).1;
            FunctionName := fmt_n (errorOrigin f (callers env)).1 |}
     else None) ∧
  jpath ["context"; "httpRequest"] doc =
    (if error_tier (severity_of e) then
       let req := http_of (delete "error" (logrus.Data e)) in
       if decide (req = ∅) then None else json_map req
     else None) ∧
  jpath ["context"; "user"] doc =
    (if error_tier (severity_of e) then
       opt_string (string_at (drop_http (delete "error" (logrus.Data e)))
                     (DefaultSubjectKey g))
     else None).
Proof.
  intros HF. destruct (Format_context _ _ _ _ _ _ HF) as (c & cj & Hc & Hcj & Hget).
  destruct (envelope_Context f g env e) as (c' & Hc' & _ & Hloc & Hreq & Huser).
  assert (c' = c) as -> by congruence.
  destruct (json_context_members _ _ _ Hcj) as (_ & Hl & Hr & Hu).
  rewrite !jpath_cons, Hget.
  change (Some cj ≫= jpath ["reportLocation"]) with (jpath ["reportLocation"] cj).
  change (Some cj ≫= jpath ["httpRequest"]) with (jpath ["httpRequest"] cj).
  change (Some cj ≫= jpath ["user"]) with (jpath ["user"] cj).
  rewrite !jpath_one, Hl, Hr, Hu, Hloc, Hreq, Huser.
  destruct (error_tier (severity_of e)); done.
Qed.

(** The top-level members of the returned document. *)
Lemma Format_members f g env e doc h' :
  Format f g env e = (Some doc, h') ->
  jget "timestamp" doc =
    opt_string (if skipTimestamp g then "" else now env) ∧
  jget "serviceContext" doc =
    (if error_tier (severity_of e) then
       json_serviceContext
         {| sc_Service := Service f; sc_Version := Version f |}
     else None) ∧
  jget "message" doc =
    opt_string
      (if error_tier (severity_of e) then
         match logrus.Data e !! "error" with
         | Some err => logrus.Message e +:+ ": " +:+ fmt_s err
         | None => logrus.Message e
         end
       else logrus.Message e) ∧
  jget "severity" doc = opt_string (severity_of e) ∧
  jget "logging.googleapis.com/trace" doc =
    opt_string
      (string_at (drop_string (DefaultOperationIdKey g) (store_after_switch g e))
         fieldNameTraceID) ∧
  jget "logging.googleapis.com/span_id" doc =
    opt_string
      (string_at
         (drop_string fieldNameTraceID
            (drop_string (DefaultOperationIdKey g) (store_after_switch g e)))
         fieldNameSpanID) ∧
  jget "sourceLocation" doc =
    (if error_tier (severity_of e) then None
     else
       json_sourceLocation
         {| File := fmt_plus_s (errorOrigin f (callers env)).1;
            Line :=
              fmt_d (strconv_ParseInt
                       (fmt_d_call (errorOrigin f (callers env)).1)).1;
            Function := fmt_n (errorOrigin f (callers env)).1 |}) ∧
  jget "operation" doc =
    (let id := string_at (store_after_switch g e) (DefaultOperationIdKey g) in
     if String.eqb id "" then None else Some (JObj [("id", JStr id)])).
Proof.
  intros (-> & Hdoc)%Format_inv.
  destruct (json_entry_members _ _ _ Hdoc)
    as (Hts & Hsvc & Hmsg & Hsev & _ & Htr & Hsp & Hsrc & Hop).
  rewrite Hts, Hsvc, Hmsg, Hsev, Htr, Hsp, Hsrc, Hop.
  unfold envelope.
  cbn [Timestamp ServiceContext Message Severity Trace SpanID SourceLocation
       Operation].
  repeat split; try by destruct (error_tier (severity_of e)).
  cbn zeta. destruct (String.eqb_spec (string_at (store_after_switch g e)
                                         (DefaultOperationIdKey g)) "") as [|Hne];
    [done |].
  simpl. unfold json_operation. simpl.
  unfold member_string. by rewrite decide_False.
Qed.


(** ** Keys that leave the field map *)

Lemma keys_distinct_ne g :
  keys_distinct g ->
  DefaultSubjectKey g ≠ "error" ∧ DefaultSubjectKey g ≠ "httpRequest" ∧
  DefaultOperationIdKey g ≠ "error" ∧
  DefaultOperationIdKey g ≠ "httpRequest" ∧
  DefaultSubjectKey g ≠ DefaultOperationIdKey g ∧
  DefaultSubjectKey g ≠ fieldNameTraceID ∧
  DefaultSubjectKey g ≠ fieldNameSpanID ∧
  DefaultOperationIdKey g ≠ fieldNameTraceID ∧
  DefaultOperationIdKey g ≠ fieldNameSpanID.
Proof.
  unfold keys_distinct, special_keys. intros H.
  repeat match goal with
         | H : NoDup (_ :: _) |- _ => apply NoDup_cons in H as [? H]
         | H : _ ∉ _ :: _ |- _ => apply not_elem_of_cons in H as [? H]
         end.
  split_and!; congruence.
Qed.

Lemma fixed_keys_ne :
  "error" ≠ "httpRequest" ∧ "error" ≠ fieldNameTraceID ∧
  "error" ≠ fieldNameSpanID ∧ "httpRequest" ≠ fieldNameTraceID ∧
  "httpRequest" ≠ fieldNameSpanID ∧ fieldNameTraceID ≠ fieldNameSpanID.
Proof. split_and!; by vm_compute. Qed.

(** The field map when the [switch] has run, at a key it does not touch. *)
Lemma store_after_switch_lookup_ne g e k :
  k ≠ "error" -> k ≠ "httpRequest" -> k ≠ DefaultSubjectKey g ->
  store_after_switch g e !! k = logrus.Data e !! k.
Proof.
  intros H1 H2 H3. unfold store_after_switch.
  destruct (error_tier _); [| done].
  by rewrite lookup_drop_string_ne, lookup_drop_http_ne, lookup_delete_ne.
Qed.

Lemma initial_globals_distinct : keys_distinct initial_globals.
Proof.
  unfold keys_distinct, special_keys.
  repeat (apply NoDup_cons; split;
          [repeat (apply not_elem_of_cons; split; [by vm_compute |]);
           apply not_elem_of_nil |]).
  apply NoDup_nil_2.
Qed.

Lemma delete_fate (h : Fields) key k v :
  h !! k = Some v -> delete key h !! k = Some v ∨ k = key.
Proof.
  intros Hk. destruct (decide (k = key)) as [->|Hne]; [by right | left].
  by rewrite lookup_delete_ne.
Qed.

Lemma drop_http_fate_key h k v :
  h !! k = Some v ->
  drop_http h !! k = Some v ∨ (k = "httpRequest" ∧ ∃ req, v = VMap req).
Proof.
  intros Hk. destruct (decide (k = "httpRequest")) as [->|Hne].
  - destruct v as [|s|m|str j]; try (right; split; [done | by eexists]);
      left; apply lookup_drop_http_keep; done.
  - left. by rewrite lookup_drop_http_ne.
Qed.

Lemma drop_string_fate_key key h k v :
  h !! k = Some v ->
  drop_string key h !! k = Some v ∨ (k = key ∧ ∃ s, v = VString s ∧ s ≠ "").
Proof.
  intros Hk. destruct (decide (key = k)) as [->|Hne].
  - destruct v as [|s|m|str j];
      try (left; apply lookup_drop_string_keep; done).
    destruct (decide (s = "")) as [->|Hs].
    + left. apply lookup_drop_string_keep; [done | by intros s [= <-]].
    + right. split; [done | by exists s].
  - left. by rewrite lookup_drop_string_ne.
Qed.

Lemma store_after_http_gone g e req :
  error_tier (severity_of e) = true ->
  logrus.Data e !! "httpRequest" = Some (VMap req) ->
  store_after g e !! "httpRequest" = None.
Proof.
  intros Htier Hreq.
  apply (lookup_weaken_None _ (drop_http (delete "error" (logrus.Data e)))).
  - unfold drop_http. rewrite lookup_delete_ne, Hreq by done.
    apply lookup_delete_eq.
  - unfold store_after, store_after_switch. rewrite Htier.
    do 3 (etrans; [apply drop_string_subseteq |]).
    apply drop_string_subseteq.
Qed.

Lemma store_after_subject_gone g e s :
  error_tier (severity_of e) = true ->
  DefaultSubjectKey g ≠ "error" -> s ≠ "" ->
  logrus.Data e !! DefaultSubjectKey g = Some (VString s) ->
  store_after g e !! DefaultSubjectKey g = None.
Proof.
  intros Htier Hne Hs Hsubj.
  apply (lookup_weaken_None _
           (drop_string (DefaultSubjectKey g)
              (drop_http (delete "error" (logrus.Data e))))).
  - apply (lookup_drop_string_eq _ _ s); [| done].
    apply lookup_drop_http_keep; [by rewrite lookup_delete_ne | by intros m].
  - unfold store_after, store_after_switch. rewrite Htier.
    do 2 (etrans; [apply drop_string_subseteq |]).
    apply drop_string_subseteq.
Qed.

Lemma store_after_cross_gone g e k s :
  keys_distinct g ->
  k ∈ [DefaultOperationIdKey g; fieldNameTraceID; fieldNameSpanID] ->
  s ≠ "" ->
  logrus.Data e !! k = Some (VString s) ->
  store_after g e !! k = None.
Proof.
  intros Hkeys Hk Hs Hv.
  destruct (keys_distinct_ne g Hkeys)
    as (Hs1 & Hs2 & Ho1 & Ho2 & Hso & Hst & Hsp & Hot & Hop).
  destruct fixed_keys_ne as (He1 & He2 & He3 & Hh1 & Hh2 & Hts).
  rewrite !elem_of_cons in Hk.
  destruct Hk as [-> | [-> | [-> | Hk]]]; [| | | by apply elem_of_nil in Hk].
  - apply (lookup_weaken_None _
             (drop_string (DefaultOperationIdKey g) (store_after_switch g e))).
    + apply (lookup_drop_string_eq _ _ s); [| done].
      by rewrite store_after_switch_lookup_ne.
    + unfold store_after. etrans; apply drop_string_subseteq.
  - apply (lookup_weaken_None _
             (drop_string fieldNameTraceID
                (drop_string (DefaultOperationIdKey g)
                   (store_after_switch g e)))).
    + apply (lookup_drop_string_eq _ _ s); [| done].
      by rewrite lookup_drop_string_ne, store_after_switch_lookup_ne.
    + unfold store_after. apply drop_string_subseteq.
  - apply (lookup_drop_string_eq _ _ s); [| done].
    by rewrite !lookup_drop_string_ne, store_after_switch_lookup_ne.
Qed.

(** A pair of the caller's map is either still there after the call or
    was taken by one of the statements of [Format]. *)
Lemma store_after_fate g e k v :
  logrus.Data e !! k = Some v ->
  store_after g e !! k = Some v ∨
  (error_tier (severity_of e) = true ∧ k = "error") ∨
  (error_tier (severity_of e) = true ∧ k = "httpRequest" ∧
   ∃ req, v = VMap req) ∨
  (error_tier (severity_of e) = true ∧ k = DefaultSubjectKey g ∧
   ∃ s, v = VString s ∧ s ≠ "") ∨
  (k ∈ [DefaultOperationIdKey g; fieldNameTraceID; fieldNameSpanID] ∧
   ∃ s, v = VString s ∧ s ≠ "").
Proof.
  intros Hk.
  assert (store_after_switch g e !! k = Some v ->
          store_after g e !! k = Some v ∨
          (k ∈ [DefaultOperationIdKey g; fieldNameTraceID; fieldNameSpanID] ∧
           ∃ s, v = VString s ∧ s ≠ "")) as Hlate.
  { intros H4. unfold store_after.
    destruct (drop_string_fate_key (DefaultOperationIdKey g) _ _ _ H4)
      as [H5|[-> Hs]]; [| right; split; [apply list_elem_of_here | done]].
    destruct (drop_string_fate_key fieldNameTraceID _ _ _ H5)
      as [H6|[-> Hs]];
      [| right; split; [apply list_elem_of_further, list_elem_of_here | done]].
    destruct (drop_string_fate_key fieldNameSpanID _ _ _ H6)
      as [H7|[-> Hs]]; [by left |].
    right. split; [| done].
    do 2 apply list_elem_of_further. apply list_elem_of_here. }
  unfold store_after_switch in Hlate.
  destruct (error_tier (severity_of e)) eqn:Htier.
  - destruct (delete_fate _ "error" _ _ Hk) as [H1| ->];
      [| right; left; done].
    destruct (drop_http_fate_key _ _ _ H1) as [H2|[-> Hreq]];
      [| right; right; left; done].
    destruct (drop_string_fate_key (DefaultSubjectKey g) _ _ _ H2)
      as [H3|[-> Hs]]; [| right; right; right; left; done].
    destruct (Hlate H3) as [|Hcross]; [by left | by do 4 right].
  - destruct (Hlate Hk) as [|Hcross]; [by left | by do 4 right].
Qed.

(** * The claims *)

(** ** C1: vendored package paths *)




(** ** C2: a stack walk that finds no origin *)

(** C2, on the code: when the walk runs off the stack, [errorOrigin]
    returns the zero call together with a nil error, the test [err == nil]
    of [Format] succeeds, and the location is written all the same, filled
    with what the zero call prints. *)
Theorem C2_location_written_without_origin f g env e doc h' :
  (errorOrigin f (callers env)).1 = None ->
  Format f g env e = (Some doc, h') ->
  (errorOrigin f (callers env)).2 = None ∧
  if error_tier (severity_of e) then
    jpath ["context"; "reportLocation"] doc =
      Some (JObj [("filePath", JStr "%!s(NOFUNC)");
                  ("functionName", JStr "%!n(NOFUNC)")])
  else
    jget "sourceLocation" doc =
      Some (JObj [("file", JStr "%!s(NOFUNC)"); ("line", JStr "0");
                  ("function", JStr "%!n(NOFUNC)")]).
Proof.
  intros Horigin HF. split; [apply errorOrigin_err |].
  destruct (Format_context_members _ _ _ _ _ _ HF) as (Hloc & _).
  destruct (Format_members _ _ _ _ _ _ HF) as (_ & _ & _ & _ & _ & _ & Hsrc & _).
  rewrite Horigin in Hloc, Hsrc.
  destruct (error_tier (severity_of e)); [exact Hloc | exact Hsrc].
Qed.

Lemma C2_location_written_without_origin_witness :
  let env := {| callers := callers_all_skipped; now := "" |} in
  let e := record logrus.InfoLevel "application up and running" ∅ in
  (errorOrigin formatter_skip_all (callers env)).1 = None ∧
  ∃ doc,
    Format formatter_skip_all initial_globals env e = (Some doc, ∅) ∧
    jget "sourceLocation" doc =
      Some (JObj [("file", JStr "%!s(NOFUNC)"); ("line", JStr "0");
                  ("function", JStr "%!n(NOFUNC)")]).
Proof.
  intros env e. split; [reflexivity |].
  destruct (Format formatter_skip_all initial_globals env e) as [[doc|] h']
    eqn:HF; [| by vm_compute in HF].
  assert (h' = ∅) as ->.
  { apply Format_inv in HF as [-> _]. by vm_compute. }
  exists doc. split; [reflexivity |].
  exact (proj2 (C2_location_written_without_origin formatter_skip_all
                  initial_globals env e doc ∅ eq_refl HF)).
Defined.

(** ** C3: the caller's field map *)

(** C3, as stated, fails: the envelope holds the caller's map itself, and
    the [delete] statements act on it; after an error-tier call the key
    [error] is gone from the caller's map. *)
Lemma C3_counterexample :
  let data : Fields :=
    {[ "error" := go_error "test error"; "foo" := VString "bar" ]} in
  let e := record logrus.ErrorLevel "my log entry" data in
  let h' := (Format formatter_test initial_globals env_example e).2 in
  logrus.Data e !! "error" = Some (go_error "test error") ∧
  h' !! "error" = None ∧
  h' ≠ logrus.Data e.
Proof.
  intros data e h'.
  assert (logrus.Data e !! "error" = Some (go_error "test error")) as H1
    by (by vm_compute).
  assert (h' !! "error" = None) as H2 by (by vm_compute).
  split; [done |]. split; [done |]. intros Heq. congruence.
Qed.

(** C3, amended: when [Format] returns, the caller's field map is a
    part of what it was: no key is added and no value is changed.  A pair
    is missing afterwards only if [Format] extracted it: [error],
    [httpRequest] holding a map, the subject id holding a non-empty
    string (all three at the error tier only), and the operation, trace and
    span ids holding a non-empty string; every other pair is still there.
    These extracted pairs are deleted from the caller's map (for the
    configured keys: when they do not collide with the other special
    keys). *)
Theorem C3_field_map_after_Format f g env e :
  let h' := (Format f g env e).2 in
  h' ⊆ logrus.Data e ∧
  (∀ k, k ∉ special_keys g -> h' !! k = logrus.Data e !! k) ∧
  (∀ k v, logrus.Data e !! k = Some v ->
     h' !! k = Some v ∨
     (error_level (logrus.Level e) ∧ k = "error") ∨
     (error_level (logrus.Level e) ∧ k = "httpRequest" ∧
      ∃ req, v = VMap req) ∨
     (error_level (logrus.Level e) ∧ k = DefaultSubjectKey g ∧
      ∃ s, v = VString s ∧ s ≠ "") ∨
     (k ∈ [DefaultOperationIdKey g; fieldNameTraceID; fieldNameSpanID] ∧
      ∃ s, v = VString s ∧ s ≠ "")) ∧
  (error_level (logrus.Level e) -> h' !! "error" = None) ∧
  (error_level (logrus.Level e) ->
     ∀ req, logrus.Data e !! "httpRequest" = Some (VMap req) ->
            h' !! "httpRequest" = None) ∧
  (error_level (logrus.Level e) -> DefaultSubjectKey g ≠ "error" ->
     ∀ s, s ≠ "" -> logrus.Data e !! DefaultSubjectKey g = Some (VString s) ->
          h' !! DefaultSubjectKey g = None) ∧
  (keys_distinct g ->
     ∀ k s, k ∈ [DefaultOperationIdKey g; fieldNameTraceID; fieldNameSpanID] ->
            s ≠ "" -> logrus.Data e !! k = Some (VString s) ->
            h' !! k = None).
Proof.
  intros h'. subst h'. rewrite Format_eq. cbn [snd].
  split_and!.
  - apply store_after_subseteq.
  - intros k Hk. unfold special_keys in Hk.
    repeat (apply not_elem_of_cons in Hk as [? Hk]).
    unfold store_after, store_after_switch.
    rewrite !lookup_drop_string_ne by done.
    destruct (error_tier _); [| done].
    rewrite lookup_drop_string_ne, lookup_drop_http_ne, lookup_delete_ne; done.
  - intros k v Hk. rewrite <- !error_tier_level. by apply store_after_fate.
  - intros Htier%error_tier_level. by apply store_after_error_gone.
  - intros Htier%error_tier_level req Hreq.
    by apply (store_after_http_gone g e req).
  - intros Htier%error_tier_level Hne s Hs Hsubj.
    by apply (store_after_subject_gone g e s).
  - intros Hkeys k s Hk Hs Hv. by apply (store_after_cross_gone g e k s).
Qed.

Lemma C3_field_map_after_Format_witness :
  let data : Fields :=
    {[ "error" := go_error "test error";
       "httpRequest" := VMap {[ "method" := VString "GET" ]};
       "X-Subject-Id" := VString "alice";
       "X-Request-Id" := VString "req-1";
       "foo" := VString "bar" ]} in
  let e := record logrus.ErrorLevel "my log entry" data in
  let h' := (Format formatter_test initial_globals env_example e).2 in
  ("foo" ∉ special_keys initial_globals) ∧
  error_level (logrus.Level e) ∧ keys_distinct initial_globals ∧
  h' !! "foo" = Some (VString "bar") ∧ h' !! "error" = None ∧
  h' !! "httpRequest" = None ∧ h' !! "X-Subject-Id" = None ∧
  h' !! "X-Request-Id" = None.
Proof.
  intros data e h'.
  destruct (C3_field_map_after_Format formatter_test initial_globals
              env_example e)
    as (_ & Hkeep & _ & Herr & Hhttp & Hsubj & Hcross).
  assert ("foo" ∉ special_keys initial_globals) as Hfoo.
  { unfold special_keys. repeat (apply not_elem_of_cons; split; [done |]).
    apply not_elem_of_nil. }
  assert (error_level (logrus.Level e)) as Hlevel by (by left).
  split; [exact Hfoo |]. split; [exact Hlevel |].
  split; [exact initial_globals_distinct |]. split_and!.
  - subst h'. rewrite (Hkeep "foo" Hfoo). reflexivity.
  - exact (Herr Hlevel).
  - exact (Hhttp Hlevel {[ "method" := VString "GET" ]} eq_refl).
  - exact (Hsubj Hlevel ltac:(done) "alice" ltac:(done) eq_refl).
  - exact (Hcross initial_globals_distinct "X-Request-Id" "req-1"
             ltac:(apply list_elem_of_here) ltac:(done) eq_refl).
Defined.

(** ** C4: members left out of the output *)

(** C4, as stated, fails in its two instances: the context is allocated
    by every call and the service context by every error-tier call, and a
    pointer that is not nil is written even when the struct it points to
    is empty. *)
Lemma C4_counterexample :
  let g := {| skipTimestamp := true; DefaultSubjectKey := "X-Subject-Id";
              DefaultOperationIdKey := "X-Request-Id" |} in
  let env := {| callers := callers_all_skipped; now := "" |} in
  (Format formatter_skip_all g env (record logrus.InfoLevel "m" ∅)).1
    ≫= jget "context" = Some (JObj []) ∧
  (Format (NewFormatter []) g env_example (record logrus.ErrorLevel "m" ∅)).1
    ≫= jget "serviceContext" = Some (JObj []).
Proof. by vm_compute. Qed.

(** The structs below the envelope leave out their empty fields too. *)
Lemma json_serviceContext_omitempty sc :
  ∃ j, json_serviceContext sc = Some j ∧
       (sc_Service sc = "" -> jget "service" j = None) ∧
       (sc_Version sc = "" -> jget "version" j = None).
Proof.
  eexists. split; [done |]. unfold jget.
  rewrite !assoc_app, !assoc_member_string. names.
  split; intros ->; by repeat case_match.
Qed.

Lemma json_reportLocation_omitempty r :
  ∃ j, json_reportLocation r = Some j ∧
       (FilePath r = "" -> jget "filePath" j = None) ∧
       (LineNumber r = 0%Z -> jget "lineNumber" j = None) ∧
       (FunctionName r = "" -> jget "functionName" j = None).
Proof.
  eexists. split; [done |]. unfold jget.
  rewrite !assoc_app, !assoc_member_string, !assoc_member_int. names.
  repeat split; intros ->; by repeat case_match.
Qed.

Lemma json_sourceLocation_omitempty l :
  ∃ j, json_sourceLocation l = Some j ∧
       (File l = "" -> jget "file" j = None) ∧
       (Line l = "" -> jget "line" j = None) ∧
       (Function l = "" -> jget "function" j = None).
Proof.
  eexists. split; [done |]. unfold jget.
  rewrite !assoc_app, !assoc_member_string. names.
  repeat split; intros ->; by repeat case_match.
Qed.

Lemma json_operation_omitempty o :
  ∃ j, json_operation o = Some j ∧
       (Id o = "" -> jget "id" j = None) ∧
       (Producer o = "" -> jget "producer" j = None) ∧
       (First o = None -> jget "first" j = None) ∧
       (Last o = None -> jget "last" j = None).
Proof.
  unfold json_operation.
  destruct (First o) as [b1|] eqn:H1, (Last o) as [b2|] eqn:H2; simpl;
    (eexists; split; [done |]); unfold jget;
    rewrite !assoc_app, !assoc_member_string; names; simpl;
    repeat split; try done; intros ->; by repeat case_match.
Qed.

(** C4, amended: in the document [Format] returns, a field that holds
    the empty string, zero, an empty map or a nil pointer is not a member;
    the member [context] is always there, and so is [serviceContext] after
    an error-tier call. *)
Theorem C4_omitempty f g env e ee h' doc :
  Format_entry f g env e (logrus.Data e) = (ee, h') ->
  json_entry h' ee = Some doc ->
  (Timestamp ee = "" -> jget "timestamp" doc = None) ∧
  (ServiceContext ee = None -> jget "serviceContext" doc = None) ∧
  (Message ee = "" -> jget "message" doc = None) ∧
  (Severity ee = "" -> jget "severity" doc = None) ∧
  (Trace ee = "" -> jget "logging.googleapis.com/trace" doc = None) ∧
  (SpanID ee = "" -> jget "logging.googleapis.com/span_id" doc = None) ∧
  (SourceLocation ee = None -> jget "sourceLocation" doc = None) ∧
  (Operation ee = None -> jget "operation" doc = None) ∧
  (∀ sc, ServiceContext ee = Some sc ->
     ∃ j, jget "serviceContext" doc = Some j ∧
          (sc_Service sc = "" -> jget "service" j = None) ∧
          (sc_Version sc = "" -> jget "version" j = None)) ∧
  (∀ l, SourceLocation ee = Some l ->
     ∃ j, jget "sourceLocation" doc = Some j ∧
          (File l = "" -> jget "file" j = None) ∧
          (Line l = "" -> jget "line" j = None) ∧
          (Function l = "" -> jget "function" j = None)) ∧
  (∀ o, Operation ee = Some o ->
     ∃ j, jget "operation" doc = Some j ∧
          (Id o = "" -> jget "id" j = None) ∧
          (Producer o = "" -> jget "producer" j = None) ∧
          (First o = None -> jget "first" j = None) ∧
          (Last o = None -> jget "last" j = None)) ∧
  (∃ c cj, Context ee = Some c ∧ jget "context" doc = Some cj ∧
     (deref h' (Data c) = ∅ -> jget "data" cj = None) ∧
     (ReportLocation c = None -> jget "reportLocation" cj = None) ∧
     (HTTPRequest c = ∅ -> jget "httpRequest" cj = None) ∧
     (User c = "" -> jget "user" cj = None) ∧
     (∀ r, ReportLocation c = Some r ->
        ∃ j, jget "reportLocation" cj = Some j ∧
             (FilePath r = "" -> jget "filePath" j = None) ∧
             (LineNumber r = 0%Z -> jget "lineNumber" j = None) ∧
             (FunctionName r = "" -> jget "functionName" j = None))) ∧
  (error_level (logrus.Level e) -> is_Some (jget "serviceContext" doc)).
Proof.
  intros Hrun Hdoc.
  destruct (json_entry_members _ _ _ Hdoc)
    as (Hts & Hsvc & Hmsg & Hsev & Hctx & Htr & Hsp & Hsrc & Hop).
  rewrite Format_entry_run in Hrun. injection Hrun as <- <-.
  split_and!.
  1-8: intros Hzero; rewrite Hzero in *; done.
  - intros sc Hsc. rewrite Hsvc, Hsc. apply json_serviceContext_omitempty.
  - intros l Hl. rewrite Hsrc, Hl. apply json_sourceLocation_omitempty.
  - intros o Ho. rewrite Hop, Ho. apply json_operation_omitempty.
  - destruct (envelope_Context f g env e) as (c & Hc & _).
    destruct (json_entry_context _ _ _ _ Hdoc Hc) as (cj & Hcj & Hget).
    destruct (json_context_members _ _ _ Hcj) as (Hd & Hl & Hr & Hu).
    exists c, cj. split_and!; try done.
    + intros Hzero. by rewrite Hd, decide_True.
    + intros Hzero. by rewrite Hl, Hzero.
    + intros Hzero. by rewrite Hr, decide_True.
    + intros Hzero. by rewrite Hu, Hzero.
    + intros r Hr'. rewrite Hl, Hr'. apply json_reportLocation_omitempty.
  - intros Htier%error_tier_level. rewrite Hsvc. unfold envelope.
    cbn [ServiceContext]. by rewrite Htier.
Qed.

Lemma C4_omitempty_witness :
  let g := {| skipTimestamp := true; DefaultSubjectKey := "X-Subject-Id";
              DefaultOperationIdKey := "X-Request-Id" |} in
  let e := record logrus.InfoLevel "m" ∅ in
  ∃ ee doc,
    Format_entry formatter_test g env_example e (logrus.Data e) = (ee, ∅) ∧
    json_entry ∅ ee = Some doc ∧
    Timestamp ee = "" ∧ jget "timestamp" doc = None ∧
    Operation ee = None ∧ jget "operation" doc = None ∧
    is_Some (jget "context" doc).
Proof.
  intros g e.
  destruct (Format_entry formatter_test g env_example e (logrus.Data e))
    as [ee h'] eqn:Hrun.
  assert (h' = ∅) as ->.
  { rewrite Format_entry_run in Hrun. injection Hrun as _ <-. by vm_compute. }
  destruct (json_entry ∅ ee) as [doc|] eqn:Hdoc.
  2: { rewrite Format_entry_run in Hrun. injection Hrun as <-.
       by vm_compute in Hdoc. }
  assert (Timestamp ee = "") as Hts.
  { rewrite Format_entry_run in Hrun. by injection Hrun as <-. }
  assert (Operation ee = None) as Hop.
  { rewrite Format_entry_run in Hrun. by injection Hrun as <-. }
  destruct (C4_omitempty formatter_test g env_example e ee ∅ doc Hrun Hdoc)
    as (H1 & _ & _ & _ & _ & _ & _ & H8 & _ & _ & _ &
        (c & cj & _ & Hctx & _) & _).
  exists ee, doc. split; [reflexivity |]. split; [exact Hdoc |].
  split; [exact Hts |]. split; [exact (H1 Hts) |].
  split; [exact Hop |]. split; [exact (H8 Hop) |].
  rewrite Hctx. by eexists.
Defined.

(** ** Line numbers *)

(** Printing a line number with [%d] and reading it back with
    [strconv.ParseInt] gives the line number, without error. *)
Lemma ParseInt_fmt_d (n : N) :
  (Z.of_N n <= maxInt64)%Z ->
  strconv_ParseInt (fmt_d (Z.of_N n)) = (Z.of_N n, false).
Proof.
  intros Hmax. unfold fmt_d.
  assert (Z.to_int (Z.of_N n) = Decimal.Pos (N.to_uint n)) as ->
    by (by destruct n).
  cbn [NilEmpty.string_of_int].
  assert (N.to_uint n ≠ Decimal.Nil) as Hnil.
  { destruct n as [|p]; [done |]. apply DecimalPos.Unsigned.to_uint_nonnil. }
  pose proof (NilEmpty.usu (N.to_uint n)) as Husu.
  pose proof (DecimalN.Unsigned.of_to n) as Hof.
  unfold strconv_ParseInt, parse_digits.
  destruct (N.to_uint n) as [|d|d|d|d|d|d|d|d|d|d]; [done | ..];
    cbn [NilEmpty.string_of_uint] in *; rewrite Husu; cbn [fmap option_fmap option_map];
    rewrite Hof; by rewrite (proj2 (Z.ltb_ge _ _) Hmax).
Qed.

Lemma fmt_d_nonempty (n : N) : fmt_d (Z.of_N n) ≠ "".
Proof.
  unfold fmt_d.
  assert (Z.to_int (Z.of_N n) = Decimal.Pos (N.to_uint n)) as ->
    by (by destruct n).
  cbn [NilEmpty.string_of_int].
  assert (N.to_uint n ≠ Decimal.Nil) as Hnil.
  { destruct n as [|p]; [done |]. apply DecimalPos.Unsigned.to_uint_nonnil. }
  by destruct (N.to_uint n).
Qed.

(** The members of an encoded source location, by name. *)
Lemma json_sourceLocation_paths doc l :
  jget "sourceLocation" doc = json_sourceLocation l ->
  jpath ["sourceLocation"; "file"] doc = opt_string (File l) ∧
  jpath ["sourceLocation"; "line"] doc = opt_string (Line l) ∧
  jpath ["sourceLocation"; "function"] doc = opt_string (Function l).
Proof.
  intros Hsrc. rewrite !jpath_cons, Hsrc. unfold json_sourceLocation.
  change (Some ?j ≫= jpath ["file"]) with (jpath ["file"] j).
  change (Some ?j ≫= jpath ["line"]) with (jpath ["line"] j).
  change (Some ?j ≫= jpath ["function"]) with (jpath ["function"] j).
  rewrite !jpath_one. unfold jget.
  rewrite !assoc_app, !assoc_member_string. names.
  split_and!; by repeat case_match.
Qed.

(** ** C5: where the location goes *)

(** C5: after a call at debug, info or warning level the document has
    [sourceLocation] and neither [context.reportLocation] nor
    [serviceContext]; after a call at error, fatal or panic level it has
    [serviceContext] and [context.reportLocation] and no [sourceLocation].
    When the walk finds an origin, the location holds its file, line and
    function, the line as a string in the first case and as a number in
    the second. *)
Theorem C5_location_by_tier f g env e doc h' :
  Format f g env e = (Some doc, h') ->
  (sub_error_level (logrus.Level e) ->
     is_Some (jget "sourceLocation" doc) ∧
     jpath ["context"; "reportLocation"] doc = None ∧
     jget "serviceContext" doc = None ∧
     ∀ fr, (errorOrigin f (callers env)).1 = Some fr ->
           (Z.of_N (frame_line fr) <= maxInt64)%Z ->
           jget "sourceLocation" doc =
             json_sourceLocation
               {| File := frame_file fr;
                  Line := fmt_d (Z.of_N (frame_line fr));
                  Function := frame_func fr |}) ∧
  (error_level (logrus.Level e) ->
     is_Some (jget "serviceContext" doc) ∧
     is_Some (jpath ["context"; "reportLocation"] doc) ∧
     jget "sourceLocation" doc = None ∧
     ∀ fr, (errorOrigin f (callers env)).1 = Some fr ->
           (Z.of_N (frame_line fr) <= maxInt64)%Z ->
           jpath ["context"; "reportLocation"] doc =
             json_reportLocation
               {| FilePath := frame_file fr;
                  LineNumber := Z.of_N (frame_line fr);
                  FunctionName := frame_func fr |}).
Proof.
  intros HF.
  destruct (Format_context_members _ _ _ _ _ _ HF) as (Hloc & _).
  destruct (Format_members _ _ _ _ _ _ HF)
    as (_ & Hsvc & _ & _ & _ & _ & Hsrc & _).
  split.
  - intros Htier%sub_error_level_tier. rewrite Htier in *.
    split_and!; [rewrite Hsrc; by eexists | done | done |].
    intros fr Hfr Hline. rewrite Hsrc, Hfr. cbn [fmt_plus_s fmt_d_call fmt_n].
    by rewrite ParseInt_fmt_d.
  - intros Htier%error_tier_level. rewrite Htier in *.
    split_and!;
      [rewrite Hsvc; by eexists | rewrite Hloc; by eexists | done |].
    intros fr Hfr Hline. rewrite Hloc, Hfr. cbn [fmt_plus_s fmt_d_call fmt_n].
    by rewrite ParseInt_fmt_d.
Qed.

Lemma C5_location_by_tier_witness :
  let g := {| skipTimestamp := true; DefaultSubjectKey := "X-Subject-Id";
              DefaultOperationIdKey := "X-Request-Id" |} in
  let e := record logrus.InfoLevel "application up and running" ∅ in
  sub_error_level (logrus.Level e) ∧
  ∃ doc,
    Format formatter_test g env_example e = (Some doc, ∅) ∧
    jget "sourceLocation" doc =
      Some (JObj [("file", JStr "github.com/connctd/logrus-stackdriver-formatter/example_test.go");
                  ("line", JStr "19"); ("function", JStr "ExampleLogError")]) ∧
    jpath ["context"; "reportLocation"] doc = None ∧
    jget "serviceContext" doc = None.
Proof.
  intros g e.
  assert (sub_error_level (logrus.Level e)) as Hlevel by (right; by left).
  split; [exact Hlevel |].
  destruct (Format formatter_test g env_example e) as [[doc|] h'] eqn:HF;
    [| by vm_compute in HF].
  assert (h' = ∅) as ->.
  { apply Format_inv in HF as [-> _]. by vm_compute. }
  destruct (C5_location_by_tier formatter_test g env_example e doc ∅ HF)
    as [Hsub _].
  destruct (Hsub Hlevel) as (_ & Hloc & Hsvc & Hsrc).
  exists doc. split; [reflexivity |]. split.
  - rewrite (Hsrc frame_example eq_refl); [reflexivity | by vm_compute].
  - split; [exact Hloc | exact Hsvc].
Defined.

(** ** C6: special fields of the wrong type *)




(** ** C7: operation id, trace id and span id *)

(** C7, as stated, fails on a string value that is empty: the operation-id
    key stays in the data and no operation is written. *)
Lemma C7_counterexample :
  let data : Fields := {[ "X-Request-Id" := VString "" ]} in
  let e := record logrus.InfoLevel "my log entry" data in
  let r := Format formatter_test initial_globals env_example e in
  logrus.Data e !! "X-Request-Id" = Some (VString "") ∧
  r.2 !! "X-Request-Id" = Some (VString "") ∧
  r.1 ≫= jpath ["context"; "data"; "X-Request-Id"] = Some (JStr "") ∧
  r.1 ≫= jget "operation" = None.
Proof. by vm_compute. Qed.

(** C7, amended: at every level, a non-empty string under the
    operation-id key is moved to [operation.id], one under
    [ot-tracer-traceid] to the trace member and one under
    [ot-tracer-spanid] to the span member, and the key is removed from the
    data. *)
Theorem C7_cross_cutting_extraction f g env e s doc h' :
  keys_distinct g -> s ≠ "" ->
  Format f g env e = (Some doc, h') ->
  (logrus.Data e !! DefaultOperationIdKey g = Some (VString s) ->
     jpath ["operation"; "id"] doc = Some (JStr s) ∧
     h' !! DefaultOperationIdKey g = None ∧
     jpath ["context"; "data"; DefaultOperationIdKey g] doc = None) ∧
  (logrus.Data e !! fieldNameTraceID = Some (VString s) ->
     jget "logging.googleapis.com/trace" doc = Some (JStr s) ∧
     h' !! fieldNameTraceID = None ∧
     jpath ["context"; "data"; fieldNameTraceID] doc = None) ∧
  (logrus.Data e !! fieldNameSpanID = Some (VString s) ->
     jget "logging.googleapis.com/span_id" doc = Some (JStr s) ∧
     h' !! fieldNameSpanID = None ∧
     jpath ["context"; "data"; fieldNameSpanID] doc = None).
Proof.
  intros Hkeys Hs HF.
  destruct (keys_distinct_ne g Hkeys)
    as (Hs1 & Hs2 & Ho1 & Ho2 & Hso & Hst & Hsp & Hot & Hop).
  destruct fixed_keys_ne as (He1 & He2 & He3 & Hh1 & Hh2 & Hts).
  destruct (Format_members _ _ _ _ _ _ HF)
    as (_ & _ & _ & _ & Htrace & Hspan & _ & Hoper).
  pose proof (Format_data f g env e doc h') as Hdata.
  pose proof (Format_inv _ _ _ _ _ _ HF) as [-> _].
  assert (opt_string s = Some (JStr s)) as Hopt
    by (unfold opt_string; by rewrite decide_False).
  split_and!.
  - intros Hv.
    assert (store_after_switch g e !! DefaultOperationIdKey g
            = Some (VString s)) as H4
      by (by rewrite store_after_switch_lookup_ne).
    assert (store_after g e !! DefaultOperationIdKey g = None) as Hgone.
    { unfold store_after.
      apply (lookup_weaken_None _
               (drop_string (DefaultOperationIdKey g) (store_after_switch g e)));
        [by apply (lookup_drop_string_eq _ _ s) |].
      etrans; apply drop_string_subseteq. }
    split_and!; [| done | by rewrite (Hdata _ HF), Hgone].
    rewrite jpath_cons, Hoper. cbn zeta. rewrite (string_at_Some _ _ _ H4).
    destruct (String.eqb_spec s ""); [done |]. by vm_compute.
  - intros Hv.
    assert (drop_string (DefaultOperationIdKey g) (store_after_switch g e)
              !! fieldNameTraceID = Some (VString s)) as H5
      by (by rewrite lookup_drop_string_ne, store_after_switch_lookup_ne).
    assert (store_after g e !! fieldNameTraceID = None) as Hgone.
    { unfold store_after.
      apply (lookup_weaken_None _
               (drop_string fieldNameTraceID
                  (drop_string (DefaultOperationIdKey g)
                     (store_after_switch g e))));
        [by apply (lookup_drop_string_eq _ _ s) |].
      apply drop_string_subseteq. }
    split_and!; [| done | by rewrite (Hdata _ HF), Hgone].
    by rewrite Htrace, (string_at_Some _ _ _ H5).
  - intros Hv.
    assert (drop_string fieldNameTraceID
              (drop_string (DefaultOperationIdKey g) (store_after_switch g e))
              !! fieldNameSpanID = Some (VString s)) as H6
      by (by rewrite !lookup_drop_string_ne, store_after_switch_lookup_ne).
    assert (store_after g e !! fieldNameSpanID = None) as Hgone
      by (by apply (lookup_drop_string_eq _ _ s)).
    split_and!; [| done | by rewrite (Hdata _ HF), Hgone].
    by rewrite Hspan, (string_at_Some _ _ _ H6).
Qed.

Lemma C7_cross_cutting_extraction_witness :
  let data : Fields :=
    {[ "X-Request-Id" := VString "req-1"; "foo" := VString "bar" ]} in
  let e := record logrus.DebugLevel "my log entry" data in
  keys_distinct initial_globals ∧ "req-1" ≠ "" ∧
  logrus.Data e !! "X-Request-Id" = Some (VString "req-1") ∧
  ∃ doc h',
    Format formatter_test initial_globals env_example e = (Some doc, h') ∧
    jpath ["operation"; "id"] doc = Some (JStr "req-1") ∧
    h' !! "X-Request-Id" = None ∧
    jpath ["context"; "data"; "X-Request-Id"] doc = None.
Proof.
  intros data e.
  split; [exact initial_globals_distinct |]. split; [done |].
  split; [reflexivity |].
  destruct (Format formatter_test initial_globals env_example e)
    as [[doc|] h'] eqn:HF; [| by vm_compute in HF].
  exists doc, h'. split; [reflexivity |].
  exact (proj1 (C7_cross_cutting_extraction formatter_test initial_globals
                  env_example e "req-1" doc h' initial_globals_distinct
                  ltac:(done) HF) eq_refl).
Defined.

(** ** C8: the error field *)

Lemma str_append_nonempty s t u : s +:+ String t u ≠ "".
Proof. by destruct s. Qed.

(** C8: in an error-tier call on a record that has the key [error], the
    message of the output is the record's message, [": "] and the string
    form of the value: the string itself when the value is a string, the
    text of [Error()] when it is an error (in general what [%s] prints for
    it); and the data of the output has no [error]. *)
Theorem C8_error_appended_to_message f g env e err doc h' :
  error_level (logrus.Level e) ->
  logrus.Data e !! "error" = Some err ->
  Format f g env e = (Some doc, h') ->
  jget "message" doc =
    Some (JStr (logrus.Message e +:+ ": " +:+ fmt_s err)) ∧
  (∀ s, err = VString s ->
        jget "message" doc = Some (JStr (logrus.Message e +:+ ": " +:+ s))) ∧
  (∀ msg, err = go_error msg ->
        jget "message" doc = Some (JStr (logrus.Message e +:+ ": " +:+ msg))) ∧
  jpath ["context"; "data"; "error"] doc = None ∧
  h' !! "error" = None.
Proof.
  intros Hlevel Herr HF.
  destruct (Format_members _ _ _ _ _ _ HF) as (_ & _ & Hmsg & _).
  apply error_tier_level in Hlevel.
  assert (h' !! "error" = None) as Hgone.
  { apply Format_inv in HF as [-> _]. by apply store_after_error_gone. }
  assert (jget "message" doc =
          Some (JStr (logrus.Message e +:+ ": " +:+ fmt_s err))) as Hfull.
  { rewrite Hmsg, Hlevel, Herr. unfold opt_string.
    rewrite decide_False; [done |]. apply str_append_nonempty. }
  split_and!.
  - done.
  - intros s ->. exact Hfull.
  - intros msg ->. exact Hfull.
  - by rewrite (Format_data _ _ _ _ _ _ _ HF), Hgone.
  - done.
Qed.

Lemma C8_error_appended_to_message_witness :
  let data : Fields :=
    {[ "error" := VString "test error"; "foo" := VString "bar" ]} in
  let e := record logrus.ErrorLevel "my log entry" data in
  let data2 : Fields := {[ "error" := go_error "test error" ]} in
  let e2 := record logrus.FatalLevel "my log entry" data2 in
  error_level (logrus.Level e) ∧
  logrus.Data e !! "error" = Some (VString "test error") ∧
  (∃ doc h',
     Format formatter_test initial_globals env_example e = (Some doc, h') ∧
     jget "message" doc = Some (JStr "my log entry: test error") ∧
     jpath ["context"; "data"; "error"] doc = None ∧
     jpath ["context"; "data"; "foo"] doc = Some (JStr "bar")) ∧
  (∃ doc h',
     Format formatter_test initial_globals env_example e2 = (Some doc, h') ∧
     jget "message" doc = Some (JStr "my log entry: test error")).
Proof.
  intros data e data2 e2.
  assert (error_level (logrus.Level e)) as Hlevel by (by left).
  assert (error_level (logrus.Level e2)) as Hlevel2 by (right; by left).
  split; [exact Hlevel |]. split; [reflexivity |]. split.
  - destruct (Format formatter_test initial_globals env_example e)
      as [[doc|] h'] eqn:HF; [| by vm_compute in HF].
    exists doc, h'. split; [reflexivity |].
    destruct (C8_error_appended_to_message formatter_test initial_globals
                env_example e (VString "test error") doc h' Hlevel eq_refl HF)
      as (_ & Hstr & _ & Hdata & _).
    split; [exact (Hstr "test error" eq_refl) |]. split; [exact Hdata |].
    vm_compute in HF. by injection HF as <- _.
  - destruct (Format formatter_test initial_globals env_example e2)
      as [[doc|] h'] eqn:HF; [| by vm_compute in HF].
    exists doc, h'. split; [reflexivity |].
    destruct (C8_error_appended_to_message formatter_test initial_globals
                env_example e2 (go_error "test error") doc h' Hlevel2 eq_refl
                HF) as (_ & _ & Herror & _).
    exact (Herror "test error" eq_refl).
Defined.

(** ** C9: string keys holding the empty string *)

(** The empty string under a key survives every statement of [Format]
    that can delete from the map, provided the key is not [error]. *)
Lemma empty_string_kept g e key :
  key ≠ "error" ->
  logrus.Data e !! key = Some (VString "") ->
  drop_http (delete "error" (logrus.Data e)) !! key = Some (VString "") ∧
  store_after_switch g e !! key = Some (VString "") ∧
  drop_string (DefaultOperationIdKey g) (store_after_switch g e) !! key
    = Some (VString "") ∧
  drop_string fieldNameTraceID
    (drop_string (DefaultOperationIdKey g) (store_after_switch g e)) !! key
    = Some (VString "") ∧
  store_after g e !! key = Some (VString "").
Proof.
  intros Hne Hkey.
  assert (drop_http (delete "error" (logrus.Data e)) !! key
          = Some (VString "")) as H2.
  { apply lookup_drop_http_keep; [by rewrite lookup_delete_ne | by intros m]. }
  assert (store_after_switch g e !! key = Some (VString "")) as H4.
  { unfold store_after_switch. destruct (error_tier _); [| done].
    apply lookup_drop_string_keep; [done | by intros s [= <-]]. }
  unfold store_after. split_and!; try done;
    repeat (apply lookup_drop_string_keep; [| by intros s [= <-]]); done.
Qed.

(** C9, as stated, fails when a configured key collides with [error]:
    with the subject id configured as [error], an error-tier call deletes
    the key although it holds the empty string, and appends [": "] to the
    message. *)
Lemma C9_counterexample :
  let g := {| skipTimestamp := false; DefaultSubjectKey := "error";
              DefaultOperationIdKey := "X-Request-Id" |} in
  let data : Fields := {[ "error" := VString "" ]} in
  let e := record logrus.ErrorLevel "my log entry" data in
  let r := Format formatter_test g env_example e in
  logrus.Data e !! DefaultSubjectKey g = Some (VString "") ∧
  r.2 !! DefaultSubjectKey g = None ∧
  r.1 ≫= jpath ["context"; "data"; DefaultSubjectKey g] = None ∧
  r.1 ≫= jget "message" = Some (JStr "my log entry: ").
Proof. by vm_compute. Qed.

(** C9, amended: a string-extracted key that holds the empty string and
    is not configured as [error] is treated as
    absent: it stays in the data and its place in the output is not
    filled. *)
Theorem C9_empty_string_not_extracted f g env e key doc h' :
  key ∈ [DefaultSubjectKey g; DefaultOperationIdKey g; fieldNameTraceID;
         fieldNameSpanID] ->
  key ≠ "error" ->
  logrus.Data e !! key = Some (VString "") ->
  Format f g env e = (Some doc, h') ->
  h' !! key = Some (VString "") ∧
  jpath ["context"; "data"; key] doc = Some (JStr "") ∧
  (key = DefaultSubjectKey g -> jpath ["context"; "user"] doc = None) ∧
  (key = DefaultOperationIdKey g -> jget "operation" doc = None) ∧
  (key = fieldNameTraceID -> jget "logging.googleapis.com/trace" doc = None) ∧
  (key = fieldNameSpanID -> jget "logging.googleapis.com/span_id" doc = None).
Proof.
  intros _ Hne Hkey HF.
  destruct (empty_string_kept g e key Hne Hkey) as (H2 & H4 & H5 & H6 & H7).
  destruct (Format_members _ _ _ _ _ _ HF)
    as (_ & _ & _ & _ & Htrace & Hspan & _ & Hoper).
  destruct (Format_context_members _ _ _ _ _ _ HF) as (_ & _ & Huser).
  pose proof (Format_data f g env e doc h' key HF) as Hdata.
  apply Format_inv in HF as [-> _].
  split_and!.
  - done.
  - by rewrite Hdata, H7.
  - intros ->. rewrite Huser, (string_at_Some _ _ _ H2).
    by destruct (error_tier _).
  - intros ->. by rewrite Hoper, (string_at_Some _ _ _ H4).
  - intros ->. by rewrite Htrace, (string_at_Some _ _ _ H5).
  - intros ->. by rewrite Hspan, (string_at_Some _ _ _ H6).
Qed.

Lemma C9_empty_string_not_extracted_witness :
  let data : Fields :=
    {[ "X-Subject-Id" := VString ""; "foo" := VString "bar" ]} in
  let e := record logrus.ErrorLevel "my log entry" data in
  logrus.Data e !! "X-Subject-Id" = Some (VString "") ∧
  ∃ doc h',
    Format formatter_test initial_globals env_example e = (Some doc, h') ∧
    h' !! "X-Subject-Id" = Some (VString "") ∧
    jpath ["context"; "data"; "X-Subject-Id"] doc = Some (JStr "") ∧
    jpath ["context"; "user"] doc = None.
Proof.
  intros data e. split; [reflexivity |].
  destruct (Format formatter_test initial_globals env_example e)
    as [[doc|] h'] eqn:HF; [| by vm_compute in HF].
  exists doc, h'. split; [reflexivity |].
  destruct (C9_empty_string_not_extracted formatter_test initial_globals
              env_example e "X-Subject-Id" doc h')
    as (Hkept & Hdata & Huser & _).
  - apply list_elem_of_here.
  - by vm_compute.
  - reflexivity.
  - exact HF.
  - split; [exact Hkept |]. split; [exact Hdata | exact (Huser eq_refl)].
Defined.

(** ** C10: levels without a severity *)

(** C10: a level beyond the six mapped ones has the empty severity and
    takes the branch of the levels below error: no severity and no service
    context in the output, the message as it is, nothing taken from
    [error], [httpRequest] or the subject id (only the operation, trace
    and span keys can leave the map), and [sourceLocation] written, with
    the file, line and function of the origin when the walk finds one. *)
Theorem C10_unmapped_level f g env e :
  (5 < logrus.Level e)%N ->
  default "" (levelsToSeverity !! logrus.Level e) = "" ∧
  (Format f g env e).2 =
    drop_string fieldNameSpanID
      (drop_string fieldNameTraceID
         (drop_string (DefaultOperationIdKey g) (logrus.Data e))) ∧
  (keys_distinct g ->
     ∀ k, k ∈ ["error"; "httpRequest"; DefaultSubjectKey g] ->
          (Format f g env e).2 !! k = logrus.Data e !! k) ∧
  ∀ doc, (Format f g env e).1 = Some doc ->
    jget "severity" doc = None ∧
    jget "serviceContext" doc = None ∧
    jget "message" doc = opt_string (logrus.Message e) ∧
    jpath ["context"; "httpRequest"] doc = None ∧
    jpath ["context"; "user"] doc = None ∧
    jpath ["context"; "reportLocation"] doc = None ∧
    is_Some (jget "sourceLocation" doc) ∧
    ∀ fr, (errorOrigin f (callers env)).1 = Some fr ->
          (Z.of_N (frame_line fr) <= maxInt64)%Z ->
          jpath ["sourceLocation"; "file"] doc = opt_string (frame_file fr) ∧
          jpath ["sourceLocation"; "line"] doc =
            Some (JStr (fmt_d (Z.of_N (frame_line fr)))) ∧
          jpath ["sourceLocation"; "function"] doc =
            opt_string (frame_func fr).
Proof.
  intros Hlevel.
  pose proof (unmapped_level_severity e Hlevel) as Hsev.
  assert (error_tier (severity_of e) = false) as Htier by (by rewrite Hsev).
  assert ((Format f g env e).2 =
          drop_string fieldNameSpanID
            (drop_string fieldNameTraceID
               (drop_string (DefaultOperationIdKey g) (logrus.Data e))))
    as Hstore.
  { rewrite Format_eq. cbn [snd]. unfold store_after, store_after_switch.
    by rewrite Htier. }
  split_and!; [done | done | |].
  - intros Hkeys k Hk. rewrite Hstore.
    destruct (keys_distinct_ne g Hkeys)
      as (Hs1 & Hs2 & Ho1 & Ho2 & Hso & Hst & Hsp & Hot & Hop).
    destruct fixed_keys_ne as (He1 & He2 & He3 & Hh1 & Hh2 & Hts).
    rewrite !elem_of_cons in Hk.
    destruct Hk as [-> | [-> | [-> | Hk]]];
      [| | | by apply elem_of_nil in Hk];
      by rewrite !lookup_drop_string_ne.
  - intros doc Hdoc.
    destruct (Format f g env e) as [o h'] eqn:HF. cbn [fst] in Hdoc. subst o.
    destruct (Format_members _ _ _ _ _ _ HF)
      as (_ & Hsvc & Hmsg & Hsv & _ & _ & Hsrc & _).
    destruct (Format_context_members _ _ _ _ _ _ HF) as (Hloc & Hreq & Huser).
    rewrite Htier in *. rewrite Hsev in Hsv.
    split_and!; [done | done | done | done | done | done | |].
    + rewrite Hsrc. by eexists.
    + intros fr Hfr Hline. rewrite Hfr in Hsrc.
      cbn [fmt_plus_s fmt_d_call fmt_n] in Hsrc.
      rewrite ParseInt_fmt_d in Hsrc by done. cbn [fst] in Hsrc.
      destruct (json_sourceLocation_paths _ _ Hsrc) as (Hfile & Hl & Hfunc).
      cbn [File Line Function] in Hfile, Hl, Hfunc.
      split_and!; [done | | done].
      rewrite Hl. unfold opt_string.
      rewrite decide_False; [done | apply fmt_d_nonempty].
Qed.

Lemma C10_unmapped_level_witness :
  let data : Fields :=
    {[ "error" := go_error "test error";
       "httpRequest" := VMap {[ "method" := VString "GET" ]};
       "X-Subject-Id" := VString "alice" ]} in
  let e := record logrus.TraceLevel "my log entry" data in
  let r := Format formatter_test initial_globals env_example e in
  (5 < logrus.Level e)%N ∧
  (errorOrigin formatter_test (callers env_example)).1 = Some frame_example ∧
  r.2 = logrus.Data e ∧
  ∃ doc, r.1 = Some doc ∧
         jget "severity" doc = None ∧
         jget "serviceContext" doc = None ∧
         jget "message" doc = Some (JStr "my log entry") ∧
         jpath ["context"; "httpRequest"] doc = None ∧
         jpath ["context"; "user"] doc = None ∧
         jpath ["sourceLocation"; "file"] doc =
           Some (JStr "github.com/connctd/logrus-stackdriver-formatter/example_test.go") ∧
         jpath ["sourceLocation"; "line"] doc = Some (JStr "19") ∧
         jpath ["sourceLocation"; "function"] doc =
           Some (JStr "ExampleLogError").
Proof.
  intros data e r.
  assert (5 < logrus.Level e)%N as Hlevel by (by vm_compute).
  destruct (C10_unmapped_level formatter_test initial_globals env_example e
              Hlevel) as (_ & Hstore & _ & Hdoc).
  split; [exact Hlevel |]. split; [reflexivity |]. split.
  - subst r. rewrite Hstore. by vm_compute.
  - destruct r.1 as [doc|] eqn:Hr; [| by vm_compute in Hr].
    destruct (Hdoc doc Hr)
      as (Hsev & Hsvc & Hmsg & Hreq & Huser & _ & _ & Hsrc).
    destruct (Hsrc frame_example eq_refl ltac:(by vm_compute))
      as (Hfile & Hline & Hfunc).
    exists doc. split; [reflexivity |]. split; [exact Hsev |].
    split; [exact Hsvc |]. split; [exact Hmsg |]. split; [exact Hreq |].
    split; [exact Huser |]. split; [exact Hfile |].
    split; [exact Hline | exact Hfunc].
Defined.

(** * Further properties of the code *)

(** ** NewFormatter and the options *)

Lemma foldl_options f0 (l : list option_spec) :
  StackSkip (foldl (fun fmtr option => option fmtr) f0 (to_Option <$> l)) =
    (StackSkip f0 ++ skips_of l)%list ∧
  Service (foldl (fun fmtr option => option fmtr) f0 (to_Option <$> l)) =
    default (Service f0) (last (services_of l)) ∧
  Version (foldl (fun fmtr option => option fmtr) f0 (to_Option <$> l)) =
    default (Version f0) (last (versions_of l)).
Proof.
  revert f0. induction l as [|o l IH]; intros f0.
  - cbn. by rewrite app_nil_r.
  - cbn [fmap list_fmap foldl].
    destruct (IH (to_Option o f0)) as (Hskip & Hsvc & Hver).
    rewrite Hskip, Hsvc, Hver.
    destruct o; cbn; rewrite ?last_cons; split_and!;
      first [ done
            | by rewrite <- app_assoc
            | unfold services_of, versions_of;
              match goal with
              | |- context [match last ?x with _ => _ end] =>
                  destruct (last x); reflexivity
              end ].
Qed.

(** X1: a formatter built from options skips logrus first and then the
    packages given with [WithStackSkip], in the order given; its service
    and version are those of the last [WithService] and [WithVersion], and
    empty without one. *)
Theorem X1_NewFormatter_options (l : list option_spec) :
  let f := NewFormatter (to_Option <$> l) in
  StackSkip f = "github.com/sirupsen/logrus" :: skips_of l ∧
  Service f = default "" (last (services_of l)) ∧
  Version f = default "" (last (versions_of l)).
Proof.
  exact (foldl_options
           {| Service := ""; Version := "";
              StackSkip := ["github.com/sirupsen/logrus"] |} l).
Qed.

(** X2: a formatter built by [NewFormatter] from options made with
    [WithService], [WithVersion] and [WithStackSkip] skips the frames of
    logrus, also when logrus is vendored: the walk goes on past a frame
    whose package path is logrus or ends, after its first vendoring marker,
    in logrus. *)
Theorem X2_logrus_frames_skipped (l : list option_spec) fr rest a :
  (frame_pkg fr = "github.com/sirupsen/logrus" ∨
   (frame_pkg fr = a +:+ vendor +:+ "github.com/sirupsen/logrus" ∧
    ∀ p q, a +:+ vendor +:+ "github.com/sirupsen/logrus" = p +:+ vendor +:+ q ->
           (String.length a <= String.length p)%nat)) ->
  errorOrigin_from (NewFormatter (to_Option <$> l)) (Some fr :: rest) =
  errorOrigin_from (NewFormatter (to_Option <$> l)) rest.
Proof.
  intros Hpkg.
  assert (strip_vendor (frame_pkg fr) = "github.com/sirupsen/logrus") as Hstrip.
  { destruct Hpkg as [-> | [-> Hfirst]]; [by vm_compute |].
    by apply strip_vendor_first. }
  cbn [errorOrigin_from MarshalText_err fmt_plus_k]. rewrite Hstrip.
  unfold skip, NewFormatter.
  destruct (foldl_options
              {| Service := ""; Version := "";
                 StackSkip := ["github.com/sirupsen/logrus"] |} l) as (-> & _).
  done.
Qed.

Lemma X2_logrus_frames_skipped_witness :
  let fr := {| frame_pkg := "app/vendor/github.com/sirupsen/logrus";
               frame_file := "app/vendor/github.com/sirupsen/logrus/entry.go";
               frame_line := 255; frame_func := "(*Entry).log" |} in
  frame_pkg fr = "app" +:+ vendor +:+ "github.com/sirupsen/logrus" ∧
  errorOrigin_from (NewFormatter (to_Option <$> [OptService "test"]))
    [Some fr; Some frame_example] = (Some frame_example, None).
Proof.
  intros fr. split; [reflexivity |].
  rewrite (X2_logrus_frames_skipped [OptService "test"] fr
             [Some frame_example] "app").
  - reflexivity.
  - right. split; [reflexivity |].
    intros [|c1 [|c2 [|c3 p]]] q Hpq; simpl; try lia; discriminate.
Defined.


Lemma skip_in_app skips v pkg :
  skip_in (skips ++ [v]) pkg = skip_in skips pkg || String.eqb pkg v.
Proof.
  induction skips as [|x skips IH]; simpl.
  - by destruct (String.eqb pkg v).
  - destruct (String.eqb pkg x); [done | apply IH].
Qed.

(** X3: [WithStackSkip v] makes the walk skip the package [v] and changes
    nothing else: the packages skipped before are still skipped, no other
    package is, and service and version are kept. *)
Theorem X3_WithStackSkip_adds_one_package v f pkg :
  skip (WithStackSkip v f) pkg = skip f pkg || String.eqb pkg v ∧
  Service (WithStackSkip v f) = Service f ∧
  Version (WithStackSkip v f) = Version f.
Proof. split; [apply skip_in_app | done]. Qed.

(** ** errorOrigin *)

Lemma errorOrigin_from_origin f frames fr :
  (errorOrigin_from f frames).1 = Some fr ->
  ∃ n, frames !! n = Some (Some fr) ∧
       (strip_vendor (frame_pkg fr) ∉ StackSkip f) ∧
       ∀ m, (m < n)%nat ->
            ∃ fm, frames !! m = Some (Some fm) ∧
                  strip_vendor (frame_pkg fm) ∈ StackSkip f.
Proof.
  induction frames as [|c rest IH]; [done |].
  destruct c as [fc|]; [| done]. cbn [errorOrigin_from MarshalText_err fmt_plus_k].
  destruct (skip f (strip_vendor (frame_pkg fc))) eqn:Hskip; cbn [negb].
  - intros Hrest. destruct (IH Hrest) as (n & Hn & Hnot & Hbefore).
    exists (S n). split; [done |]. split; [done |].
    intros [|m] Hm.
    + exists fc. split; [done |]. by apply skip_in_elem.
    + apply Hbefore. lia.
  - intros [= ->]. exists 0. split; [done |]. split.
    + intros Hin%skip_in_elem. unfold skip in Hskip. congruence.
    + intros m Hm. lia.
Qed.

(** X4: the call [errorOrigin] returns is the first one, from index 2 of
    the stack on, that is either unresolved or outside the skipped
    packages; an unresolved one is returned as the zero call, and the error
    returned is always nil. *)
Theorem X4_errorOrigin_first_stop f st :
  (errorOrigin f st).2 = None ∧
  ∃ i, (2 <= i)%nat ∧
       stops_at f (stack_Caller st i) = true ∧
       (∀ j, (2 <= j < i)%nat -> stops_at f (stack_Caller st j) = false) ∧
       (errorOrigin f st).1 =
         (if MarshalText_err (stack_Caller st i) then None
          else stack_Caller st i).
Proof. split; [apply errorOrigin_err | apply errorOrigin_index]. Qed.

Lemma X4_errorOrigin_first_stop_witness :
  (errorOrigin formatter_skip_all callers_all_skipped).2 = None ∧
  ∃ i, (2 <= i)%nat ∧
       stops_at formatter_skip_all (stack_Caller callers_all_skipped i) = true ∧
       (errorOrigin formatter_skip_all callers_all_skipped).1 =
         (if MarshalText_err (stack_Caller callers_all_skipped i) then None
          else stack_Caller callers_all_skipped i).
Proof.
  destruct (X4_errorOrigin_first_stop formatter_skip_all callers_all_skipped)
    as (Herr & i & Hi & Hstop & _ & Hres).
  split; [exact Herr |]. exists i.
  split; [exact Hi |]. split; [exact Hstop | exact Hres].
Defined.

(** X5: a frame returned as the origin lies at index 2 or above, its
    package (vendoring removed) is not in the skip list, and every call
    between index 2 and it is a resolved frame of a skipped package. *)
Theorem X5_origin_outside_skipped_packages f st fr :
  (errorOrigin f st).1 = Some fr ->
  ∃ i, (2 <= i)%nat ∧ st !! i = Some (Some fr) ∧
       (strip_vendor (frame_pkg fr) ∉ StackSkip f) ∧
       ∀ j, (2 <= j < i)%nat ->
            ∃ fj, st !! j = Some (Some fj) ∧
                  strip_vendor (frame_pkg fj) ∈ StackSkip f.
Proof.
  intros Horigin.
  destruct (errorOrigin_from_origin f (drop 2 st) fr Horigin)
    as (n & Hn & Hnot & Hbefore).
  exists (2 + n). rewrite lookup_drop in Hn.
  split; [lia |]. split; [done |]. split; [done |].
  intros j Hj. destruct (Hbefore (j - 2)) as (fj & Hfj & Hin); [lia |].
  rewrite lookup_drop in Hfj. replace (2 + (j - 2)) with j in Hfj by lia.
  by exists fj.
Qed.

Lemma X5_origin_outside_skipped_packages_witness :
  (errorOrigin formatter_test callers_example).1 = Some frame_example ∧
  ∃ i, (2 <= i)%nat ∧ callers_example !! i = Some (Some frame_example) ∧
       strip_vendor (frame_pkg frame_example) ∉ StackSkip formatter_test.
Proof.
  split; [reflexivity |].
  destruct (X5_origin_outside_skipped_packages formatter_test callers_example
              frame_example eq_refl) as (i & Hi & Hlook & Hnot & _).
  exists i. split; [exact Hi |]. split; [exact Hlook | exact Hnot].
Defined.

Lemma str_drop_suffix n s : ∃ p, s = p +:+ str_drop n s.
Proof.
  revert s. induction n as [|n IH]; intros s; [by exists "" |].
  destruct s as [|c s]; [by exists "" |].
  destruct (IH s) as [p Hp]. exists (String c p). simpl.
  unfold String.append; fold String.append. by rewrite <- Hp.
Qed.

(** X6: removing vendoring only ever cuts a prefix off the package path,
    and a path without the marker is left as it is. *)
Theorem X6_strip_vendor_suffix pkg :
  (∃ p, pkg = p +:+ strip_vendor pkg) ∧
  ((∀ i, ¬ occurs_at vendor pkg i) -> strip_vendor pkg = pkg).
Proof.
  split; [| apply strip_vendor_none].
  unfold strip_vendor, strings_SplitN.
  destruct (String.length pkg) as [|n] eqn:Hlen.
  - destruct pkg; [by exists "" | done].
  - replace (2 `min` (S n + 1)) with 2 by lia. cbn [genSplit].
    destruct (strings_Index pkg "/vendor/") as [m|]; [| by exists ""].
    cbn. apply str_drop_suffix.
Qed.

Lemma X6_strip_vendor_suffix_witness :
  (∀ i, ¬ occurs_at vendor "github.com/sirupsen/logrus" i) ∧
  strip_vendor "github.com/sirupsen/logrus" = "github.com/sirupsen/logrus".
Proof.
  assert (∀ i, ¬ occurs_at vendor "github.com/sirupsen/logrus" i) as Hno
    by (by apply strings_Index_None).
  split; [exact Hno |].
  exact (proj2 (X6_strip_vendor_suffix "github.com/sirupsen/logrus") Hno).
Defined.

(** ** Format: timestamp, severity and location *)

(** X7: the document has no [timestamp] when the package flag
    [skipTimestamp] is set, and otherwise carries the formatted current
    instant. *)
Theorem X7_timestamp f g env e doc h' :
  Format f g env e = (Some doc, h') ->
  jget "timestamp" doc =
    if skipTimestamp g then None else opt_string (now env).
Proof.
  intros HF. destruct (Format_members _ _ _ _ _ _ HF) as (Hts & _).
  rewrite Hts. by destruct (skipTimestamp g).
Qed.

Lemma X7_timestamp_witness :
  ∃ doc h',
    Format formatter_test initial_globals env_example
      (record logrus.InfoLevel "m" ∅) = (Some doc, h') ∧
    jget "timestamp" doc = Some (JStr "2026-01-02T03:04:05Z").
Proof.
  destruct (Format formatter_test initial_globals env_example
              (record logrus.InfoLevel "m" ∅)) as [[doc|] h'] eqn:HF;
    [| by vm_compute in HF].
  exists doc, h'. split; [reflexivity |].
  exact (X7_timestamp _ _ _ _ _ _ HF).
Defined.

(** X8: the [severity] of the document is fixed by the level: ALERT for
    panic, CRITICAL for fatal, ERROR, WARNING, INFO and DEBUG for the
    levels of these names, and no [severity] member for any other level. *)
Theorem X8_severity_of_level f g env e doc h' :
  Format f g env e = (Some doc, h') ->
  jget "severity" doc =
    if decide (logrus.Level e = logrus.PanicLevel) then Some (JStr "ALERT")
    else if decide (logrus.Level e = logrus.FatalLevel)
      then Some (JStr "CRITICAL")
    else if decide (logrus.Level e = logrus.ErrorLevel) then Some (JStr "ERROR")
    else if decide (logrus.Level e = logrus.WarnLevel)
      then Some (JStr "WARNING")
    else if decide (logrus.Level e = logrus.InfoLevel) then Some (JStr "INFO")
    else if decide (logrus.Level e = logrus.DebugLevel)
      then Some (JStr "DEBUG")
    else None.
Proof.
  intros HF. destruct (Format_members _ _ _ _ _ _ HF) as (_ & _ & _ & Hsev & _).
  rewrite Hsev. unfold severity_of. rewrite levelsToSeverity_lookup.
  unfold logrus.DebugLevel, logrus.InfoLevel, logrus.WarnLevel,
    logrus.ErrorLevel, logrus.FatalLevel, logrus.PanicLevel.
  repeat case_decide; first [done | lia].
Qed.

Lemma X8_severity_of_level_witness :
  ∃ doc h',
    Format formatter_test initial_globals env_example
      (record logrus.FatalLevel "m" ∅) = (Some doc, h') ∧
    jget "severity" doc = Some (JStr "CRITICAL").
Proof.
  destruct (Format formatter_test initial_globals env_example
              (record logrus.FatalLevel "m" ∅)) as [[doc|] h'] eqn:HF;
    [| by vm_compute in HF].
  exists doc, h'. split; [reflexivity |].
  exact (X8_severity_of_level _ _ _ _ _ _ HF).
Defined.

(** X9: at every level, mapped or not, the document has exactly one of
    the two locations: [context.reportLocation] and [serviceContext] when
    the level is error, fatal or panic, [sourceLocation] otherwise. *)
Theorem X9_one_location_at_every_level f g env e doc h' :
  Format f g env e = (Some doc, h') ->
  (is_Some (jpath ["context"; "reportLocation"] doc) ↔
     error_level (logrus.Level e)) ∧
  (is_Some (jget "serviceContext" doc) ↔ error_level (logrus.Level e)) ∧
  (is_Some (jget "sourceLocation" doc) ↔ ¬ error_level (logrus.Level e)).
Proof.
  intros HF.
  destruct (Format_context_members _ _ _ _ _ _ HF) as (Hloc & _).
  destruct (Format_members _ _ _ _ _ _ HF)
    as (_ & Hsvc & _ & _ & _ & _ & Hsrc & _).
  rewrite Hloc, Hsvc, Hsrc, <- !error_tier_level.
  destruct (error_tier (severity_of e)); split_and!; split;
    first [ done | by intros [? [=]] | by eexists | by intros [] ].
Qed.

Lemma X9_one_location_at_every_level_witness :
  ∃ doc h',
    Format formatter_test initial_globals env_example
      (record logrus.TraceLevel "m" ∅) = (Some doc, h') ∧
    is_Some (jget "sourceLocation" doc) ∧
    ¬ is_Some (jpath ["context"; "reportLocation"] doc).
Proof.
  destruct (Format formatter_test initial_globals env_example
              (record logrus.TraceLevel "m" ∅)) as [[doc|] h'] eqn:HF;
    [| by vm_compute in HF].
  destruct (X9_one_location_at_every_level _ _ _ _ _ _ HF)
    as (Hloc & _ & Hsrc).
  assert (¬ error_level logrus.TraceLevel) as Hlevel
    by (by intros [|[|]]).
  exists doc, h'. split; [reflexivity |]. split.
  - by apply Hsrc.
  - intros H. by apply Hlevel, Hloc.
Defined.

(** X10: below the error tier the key [error] is not special: its value
    stays in the data and the message is the record's message. *)
Theorem X10_error_field_below_error_tier f g env e err doc h' :
  ¬ error_level (logrus.Level e) ->
  DefaultOperationIdKey g ≠ "error" ->
  logrus.Data e !! "error" = Some err ->
  Format f g env e = (Some doc, h') ->
  jget "message" doc = opt_string (logrus.Message e) ∧
  h' !! "error" = Some err ∧
  jpath ["context"; "data"; "error"] doc = json_Value err.
Proof.
  intros Hlevel Hop Herr HF.
  assert (error_tier (severity_of e) = false) as Htier.
  { destruct (error_tier (severity_of e)) eqn:H; [| done].
    by apply error_tier_level in H. }
  destruct (Format_members _ _ _ _ _ _ HF) as (_ & _ & Hmsg & _).
  pose proof (Format_data f g env e doc h' "error" HF) as Hdata.
  apply Format_inv in HF as [-> _].
  destruct fixed_keys_ne as (_ & He2 & He3 & _).
  assert (store_after g e !! "error" = Some err) as Hstore.
  { unfold store_after, store_after_switch. rewrite Htier.
    by rewrite !lookup_drop_string_ne. }
  rewrite Hmsg, Htier, Hdata, Hstore. done.
Qed.

Lemma X10_error_field_below_error_tier_witness :
  let data : Fields := {[ "error" := go_error "test error" ]} in
  let e := record logrus.WarnLevel "my log entry" data in
  ¬ error_level (logrus.Level e) ∧
  ∃ doc h',
    Format formatter_test initial_globals env_example e = (Some doc, h') ∧
    jget "message" doc = Some (JStr "my log entry") ∧
    h' !! "error" = Some (go_error "test error").
Proof.
  intros data e.
  assert (¬ error_level (logrus.Level e)) as Hlevel by (by intros [|[|]]).
  split; [exact Hlevel |].
  destruct (Format formatter_test initial_globals env_example e)
    as [[doc|] h'] eqn:HF; [| by vm_compute in HF].
  destruct (X10_error_field_below_error_tier formatter_test initial_globals
              env_example e (go_error "test error") doc h' Hlevel
              ltac:(done) eq_refl HF) as (Hmsg & Hstore & _).
  exists doc, h'. split; [reflexivity |]. split; [exact Hmsg | exact Hstore].
Defined.

(** ** Format: extraction at the error tier *)

(** X11: in an error-tier call an [httpRequest] field that holds a map is
    removed from the data and written as [context.httpRequest]; when the
    map is empty it is removed all the same and, being empty, not written
    at all. *)
Theorem X11_httpRequest_moved f g env e req doc h' :
  error_level (logrus.Level e) ->
  logrus.Data e !! "httpRequest" = Some (VMap req) ->
  Format f g env e = (Some doc, h') ->
  jpath ["context"; "httpRequest"] doc =
    (if decide (req = ∅) then None else json_map req) ∧
  h' !! "httpRequest" = None ∧
  jpath ["context"; "data"; "httpRequest"] doc = None.
Proof.
  intros Htier%error_tier_level Hreq HF.
  destruct (Format_context_members _ _ _ _ _ _ HF) as (_ & Hhttp & _).
  pose proof (Format_data f g env e doc h' "httpRequest" HF) as Hdata.
  apply Format_inv in HF as [-> _].
  assert (delete "error" (logrus.Data e) !! "httpRequest" = Some (VMap req))
    as H1 by (by rewrite lookup_delete_ne).
  assert (store_after g e !! "httpRequest" = None) as Hgone.
  { apply (lookup_weaken_None _ (drop_http (delete "error" (logrus.Data e)))).
    - unfold drop_http. rewrite H1. apply lookup_delete_eq.
    - unfold store_after, store_after_switch. rewrite Htier.
      do 3 (etrans; [apply drop_string_subseteq |]).
      apply drop_string_subseteq. }
  split_and!; [| done | by rewrite Hdata, Hgone].
  rewrite Hhttp, Htier. cbn zeta. unfold http_of. by rewrite H1.
Qed.

Lemma X11_httpRequest_moved_witness :
  let req : Fields := {[ "method" := VString "GET" ]} in
  let data : Fields := {[ "httpRequest" := VMap req; "foo" := VString "bar" ]} in
  let e := record logrus.ErrorLevel "my log entry" data in
  error_level (logrus.Level e) ∧
  ∃ doc h',
    Format formatter_test initial_globals env_example e = (Some doc, h') ∧
    jpath ["context"; "httpRequest"] doc =
      Some (JObj [("method", JStr "GET")]) ∧
    jpath ["context"; "data"; "httpRequest"] doc = None.
Proof.
  intros req data e.
  assert (error_level (logrus.Level e)) as Hlevel by (by left).
  split; [exact Hlevel |].
  destruct (Format formatter_test initial_globals env_example e)
    as [[doc|] h'] eqn:HF; [| by vm_compute in HF].
  destruct (X11_httpRequest_moved formatter_test initial_globals env_example
              e req doc h' Hlevel eq_refl HF) as (Hhttp & _ & Hdata).
  exists doc, h'. split; [reflexivity |]. split; [| exact Hdata].
  rewrite Hhttp. by vm_compute.
Defined.

(** X12: in an error-tier call a non-empty string under the subject-id
    key is written as [context.user] and removed from the data; below the
    error tier no [context.user] is ever written. *)
Theorem X12_subject_moved_to_user f g env e s doc h' :
  DefaultSubjectKey g ≠ "error" -> s ≠ "" ->
  logrus.Data e !! DefaultSubjectKey g = Some (VString s) ->
  Format f g env e = (Some doc, h') ->
  (error_level (logrus.Level e) ->
     jpath ["context"; "user"] doc = Some (JStr s) ∧
     h' !! DefaultSubjectKey g = None ∧
     jpath ["context"; "data"; DefaultSubjectKey g] doc = None) ∧
  (¬ error_level (logrus.Level e) -> jpath ["context"; "user"] doc = None).
Proof.
  intros Hne Hs Hsubj HF.
  destruct (Format_context_members _ _ _ _ _ _ HF) as (_ & _ & Huser).
  pose proof (Format_data f g env e doc h' (DefaultSubjectKey g) HF) as Hdata.
  apply Format_inv in HF as [-> _].
  split.
  - intros Htier%error_tier_level.
    assert (drop_http (delete "error" (logrus.Data e)) !! DefaultSubjectKey g
            = Some (VString s)) as H2.
    { apply lookup_drop_http_keep; [by rewrite lookup_delete_ne | by intros m]. }
    assert (store_after g e !! DefaultSubjectKey g = None) as Hgone.
    { apply (lookup_weaken_None _
               (drop_string (DefaultSubjectKey g)
                  (drop_http (delete "error" (logrus.Data e))))).
      - by apply (lookup_drop_string_eq _ _ s).
      - unfold store_after, store_after_switch. rewrite Htier.
        do 2 (etrans; [apply drop_string_subseteq |]).
        apply drop_string_subseteq. }
    split_and!; [| done | by rewrite Hdata, Hgone].
    rewrite Huser, Htier, (string_at_Some _ _ _ H2).
    unfold opt_string. by rewrite decide_False.
  - intros Hlevel. rewrite Huser.
    destruct (error_tier (severity_of e)) eqn:H; [| done].
    by apply error_tier_level in H.
Qed.

Lemma X12_subject_moved_to_user_witness :
  let data : Fields := {[ "X-Subject-Id" := VString "alice" ]} in
  let e := record logrus.PanicLevel "my log entry" data in
  error_level (logrus.Level e) ∧
  ∃ doc h',
    Format formatter_test initial_globals env_example e = (Some doc, h') ∧
    jpath ["context"; "user"] doc = Some (JStr "alice") ∧
    h' !! "X-Subject-Id" = None.
Proof.
  intros data e.
  assert (error_level (logrus.Level e)) as Hlevel by (right; by right).
  split; [exact Hlevel |].
  destruct (Format formatter_test initial_globals env_example e)
    as [[doc|] h'] eqn:HF; [| by vm_compute in HF].
  destruct (X12_subject_moved_to_user formatter_test initial_globals
              env_example e "alice" doc h' ltac:(done) ltac:(done) eq_refl HF)
    as [Hmove _].
  destruct (Hmove Hlevel) as (Huser & Hgone & _).
  exists doc, h'. split; [reflexivity |]. split; [exact Huser | exact Hgone].
Defined.

(** ** Format: when it fails *)

Lemma drop_string_fate key h k v :
  h !! k = Some v -> drop_string key h !! k = Some v ∨ ∃ s, v = VString s.
Proof.
  intros Hk. destruct v as [|s|m|str j]; try (right; by eexists); left;
    apply lookup_drop_string_keep; done.
Qed.

Lemma drop_http_fate h k v :
  h !! k = Some v -> drop_http h !! k = Some v ∨ ∃ req, v = VMap req.
Proof.
  intros Hk. destruct v as [|s|m|str j]; try (right; by eexists); left;
    apply lookup_drop_http_keep; done.
Qed.

Lemma json_Value_string v :
  (∃ s, v = VString s) -> is_Some (json_Value v).
Proof. intros [s ->]. by eexists. Qed.

Lemma Format_store_encodable f g env e doc h' :
  Format f g env e = (Some doc, h') -> encodable h'.
Proof.
  intros HF.
  destruct (Format_context _ _ _ _ _ _ HF) as (c & cj & Hc & Hcj & _).
  destruct (envelope_Context f g env e) as (c' & Hc' & Hdata & _).
  assert (c' = c) as -> by congruence.
  apply Format_inv in HF as [-> _].
  unfold json_context in Hcj. rewrite Hdata in Hcj. cbn [deref] in Hcj.
  destruct (member_map "data" (store_after g e)) as [d|] eqn:Hd; [| done].
  unfold member_map in Hd. case_decide as Hempty.
  - rewrite Hempty. apply encodable_empty.
  - destruct (json_map (store_after g e)) as [j|] eqn:Hj; [| done].
    by apply (json_map_encodable _ j).
Qed.

Lemma Format_request_encodable f g env e doc h' :
  Format f g env e = (Some doc, h') ->
  let req := if error_tier (severity_of e)
             then http_of (delete "error" (logrus.Data e)) else ∅ in
  req = ∅ ∨ is_Some (json_map req).
Proof.
  intros HF.
  destruct (Format_context _ _ _ _ _ _ HF) as (c & cj & Hc & Hcj & _).
  destruct (envelope_Context f g env e) as (c' & Hc' & _ & _ & Hreq & _).
  assert (c' = c) as -> by congruence.
  cbn zeta. rewrite <- Hreq. unfold json_context in Hcj.
  destruct (member_map "data" _) as [d|]; [| done]. cbn in Hcj.
  destruct (member_ptr "reportLocation" _ _) as [l|]; [| done]. cbn in Hcj.
  destruct (member_map "httpRequest" (HTTPRequest c)) as [r|] eqn:Hr; [| done].
  unfold member_map in Hr. case_decide; [by left | right].
  by destruct (json_map (HTTPRequest c)).
Qed.

Lemma json_map_empty : json_map ∅ = Some (JObj []).
Proof. unfold json_map, map_members. by rewrite map_fold_empty. Qed.

(** X13: [Format] returns a document exactly when every field value can
    be encoded as JSON, the value of [error] in an error-tier call left
    aside: that one is printed into the message and never encoded. *)
Theorem X13_Format_fails_iff_unencodable f g env e :
  is_Some (Format f g env e).1 ↔
  ∀ k v, logrus.Data e !! k = Some v ->
         ¬ (error_level (logrus.Level e) ∧ k = "error") ->
         is_Some (json_Value v).
Proof.
  split.
  - intros [doc Hdoc] k v Hk Hnot.
    destruct (Format f g env e) as [o h'] eqn:HF. cbn [fst] in Hdoc. subst o.
    pose proof (Format_store_encodable _ _ _ _ _ _ HF) as Henc.
    pose proof (Format_request_encodable _ _ _ _ _ _ HF) as Hreq.
    apply Format_inv in HF as [-> _].
    assert (store_after_switch g e !! k = Some v ->
            is_Some (json_Value v)) as Hlate.
    { intros H4. unfold store_after in Henc.
      destruct (drop_string_fate (DefaultOperationIdKey g) _ _ _ H4)
        as [H5|Hs]; [| by apply json_Value_string].
      destruct (drop_string_fate fieldNameTraceID _ _ _ H5)
        as [H6|Hs]; [| by apply json_Value_string].
      destruct (drop_string_fate fieldNameSpanID _ _ _ H6)
        as [H7|Hs]; [| by apply json_Value_string].
      by apply (Henc k). }
    unfold store_after_switch in Hlate.
    destruct (error_tier (severity_of e)) eqn:Htier; [| by apply Hlate].
    assert (k ≠ "error") as Hne.
    { intros ->. apply Hnot. split; [by apply error_tier_level | done]. }
    assert (delete "error" (logrus.Data e) !! k = Some v) as H1
      by (by rewrite lookup_delete_ne).
    destruct (decide (k = "httpRequest")) as [->|Hhttp].
    + destruct v as [|s|req|str j]; try by eexists.
      * cbn zeta in Hreq. unfold http_of in Hreq. rewrite H1 in Hreq.
        change (json_Value (VMap req)) with (json_map req).
        destruct Hreq as [->|]; [by rewrite json_map_empty | done].
      * apply Hlate. apply lookup_drop_string_keep; [| done].
        apply lookup_drop_http_keep; [done | by intros m].
    + assert (drop_http (delete "error" (logrus.Data e)) !! k = Some v) as H2
        by (by rewrite lookup_drop_http_ne).
      destruct (drop_string_fate (DefaultSubjectKey g) _ _ _ H2)
        as [H3|Hs]; [by apply Hlate | by apply json_Value_string].
  - intros Hall. rewrite Format_eq. cbn [fst].
    destruct (envelope_Context f g env e) as (c & Hc & Hdata & _ & Hreq & _).
    apply (json_entry_is_Some _ _ c Hc).
    + right. rewrite Hdata. cbn [deref]. apply json_map_is_Some. intros k v Hk.
      pose proof (lookup_weaken _ _ _ _ Hk (store_after_subseteq g e)) as Hk0.
      apply (Hall k v Hk0). intros [Hlevel ->].
      apply error_tier_level in Hlevel.
      rewrite (store_after_error_gone g e Hlevel) in Hk. done.
    + rewrite Hreq. destruct (error_tier (severity_of e)); [| by left].
      unfold http_of.
      destruct (delete "error" (logrus.Data e) !! "httpRequest")
        as [[| |req|]|] eqn:Hlook; try by left.
      right. apply lookup_delete_Some in Hlook as [_ Hlook].
      apply (Hall _ _ Hlook). by intros [_ [=]].
Qed.

Lemma X13_Format_fails_iff_unencodable_witness :
  let data : Fields := {[ "error" := go_NaN; "foo" := VString "bar" ]} in
  is_Some (Format formatter_test initial_globals env_example
             (record logrus.ErrorLevel "my log entry" data)).1 ∧
  ¬ is_Some (Format formatter_test initial_globals env_example
               (record logrus.InfoLevel "my log entry" data)).1.
Proof.
  intros data. split.
  - apply X13_Format_fails_iff_unencodable. intros k v Hk Hnot.
    destruct (decide (k = "error")) as [->|Hne];
      [destruct Hnot; split; [by left | done] |].
    cbn [logrus.Data record] in Hk. subst data.
    rewrite lookup_insert_ne in Hk by done.
    destruct (decide (k = "foo")) as [->|Hfoo].
    + rewrite lookup_singleton_eq in Hk. injection Hk as <-. by eexists.
    + by rewrite lookup_singleton_ne in Hk.
  - intros Hsome.
    pose proof (proj1 (X13_Format_fails_iff_unencodable formatter_test
                         initial_globals env_example
                         (record logrus.InfoLevel "my log entry" data))
                  Hsome "error" go_NaN eq_refl) as Hnan.
    destruct Hnan as [j Hj]; [by intros [[|[|]] _] | done].
Defined.

(** ** Format: calling it again *)

Lemma string_at_drop_string k h : string_at (drop_string k h) k = "".
Proof.
  unfold drop_string. destruct (String.eqb_spec (string_at h k) ""); [done |].
  unfold string_at. by rewrite lookup_delete_eq.
Qed.

Lemma string_at_subseteq h h' k :
  h' ⊆ h -> string_at h k = "" -> string_at h' k = "".
Proof.
  intros Hsub. unfold string_at.
  destruct (h' !! k) as [v|] eqn:Hk; [| done].
  by rewrite (lookup_weaken _ _ _ _ Hk Hsub).
Qed.

Lemma drop_string_id k h : string_at h k = "" -> drop_string k h = h.
Proof. unfold drop_string. by intros ->. Qed.

Lemma drop_http_no_map h req :
  drop_http h !! "httpRequest" ≠ Some (VMap req).
Proof.
  unfold drop_http. destruct (h !! "httpRequest") as [[]|] eqn:Hk;
    rewrite ?lookup_delete_eq, ?Hk; done.
Qed.

Lemma drop_http_id h :
  (∀ req, h !! "httpRequest" ≠ Some (VMap req)) -> drop_http h = h.
Proof.
  intros Hno. unfold drop_http.
  destruct (h !! "httpRequest") as [[| |req|]|] eqn:Hk; try done.
  by destruct (Hno req).
Qed.

Lemma store_after_fixed g e :
  store_after g (with_Data (store_after g e) e) = store_after g e.
Proof.
  assert (severity_of (with_Data (store_after g e) e) = severity_of e) as Hsev
    by done.
  assert (store_after_switch g (with_Data (store_after g e) e)
          = store_after g e) as Hswitch.
  { unfold store_after_switch at 1. rewrite Hsev. cbn [logrus.Data with_Data].
    destruct (error_tier (severity_of e)) eqn:Htier; [| done].
    rewrite (delete_id _ _ (store_after_error_gone g e Htier)).
    assert (store_after g e ⊆
            drop_string (DefaultSubjectKey g)
              (drop_http (delete "error" (logrus.Data e)))) as Hsub.
    { unfold store_after, store_after_switch. rewrite Htier.
      do 2 (etrans; [apply drop_string_subseteq |]).
      apply drop_string_subseteq. }
    rewrite drop_http_id.
    - apply drop_string_id.
      apply (string_at_subseteq _ _ _ Hsub), string_at_drop_string.
    - intros req Hreq.
      apply (drop_http_no_map (delete "error" (logrus.Data e)) req).
      apply (lookup_weaken _ _ _ _ Hreq).
      etrans; [apply Hsub | apply drop_string_subseteq]. }
  unfold store_after at 1. rewrite Hswitch.
  assert (string_at (store_after g e) (DefaultOperationIdKey g) = "") as Hop.
  { apply (string_at_subseteq
             (drop_string (DefaultOperationIdKey g) (store_after_switch g e)));
      [| apply string_at_drop_string].
    unfold store_after. etrans; apply drop_string_subseteq. }
  assert (string_at (store_after g e) fieldNameTraceID = "") as Htr.
  { apply (string_at_subseteq
             (drop_string fieldNameTraceID
                (drop_string (DefaultOperationIdKey g)
                   (store_after_switch g e))));
      [| apply string_at_drop_string].
    unfold store_after. apply drop_string_subseteq. }
  assert (string_at (store_after g e) fieldNameSpanID = "") as Hsp
    by apply string_at_drop_string.
  by rewrite (drop_string_id _ _ Hop), (drop_string_id _ _ Htr),
    (drop_string_id _ _ Hsp).
Qed.

(** X14: what [Format] does to the field map it does once: a second call
    on the record, with the map as the first call left it, deletes nothing
    more, whatever the formatter and the call stack of the second call. *)
Theorem X14_second_call_keeps_map f f2 g env env2 e :
  (Format f2 g env2 (with_Data (Format f g env e).2 e)).2 =
  (Format f g env e).2.
Proof. rewrite !Format_eq. cbn [snd]. apply store_after_fixed. Qed.

(** X15: since the first error-tier call deletes [error] from the
    caller's map, the error is in the message of the first document only:
    a second call on the same record writes the message alone. *)
Theorem X15_error_lost_on_second_call f g env e err doc h' doc2 h2 :
  error_level (logrus.Level e) ->
  logrus.Data e !! "error" = Some err ->
  Format f g env e = (Some doc, h') ->
  Format f g env (with_Data h' e) = (Some doc2, h2) ->
  jget "message" doc =
    Some (JStr (logrus.Message e +:+ ": " +:+ fmt_s err)) ∧
  jget "message" doc2 = opt_string (logrus.Message e).
Proof.
  intros Htier%error_tier_level Herr HF HF2.
  destruct (Format_members _ _ _ _ _ _ HF) as (_ & _ & Hmsg & _).
  destruct (Format_members _ _ _ _ _ _ HF2) as (_ & _ & Hmsg2 & _).
  apply Format_inv in HF as [-> _].
  split.
  - rewrite Hmsg, Htier, Herr. unfold opt_string.
    rewrite decide_False; [done | apply str_append_nonempty].
  - rewrite Hmsg2. cbn [logrus.Data logrus.Message with_Data].
    change (severity_of (with_Data (store_after g e) e)) with (severity_of e).
    by rewrite Htier, (store_after_error_gone g e Htier).
Qed.

Lemma X15_error_lost_on_second_call_witness :
  let data : Fields := {[ "error" := go_error "test error" ]} in
  let e := record logrus.ErrorLevel "my log entry" data in
  error_level (logrus.Level e) ∧
  ∃ doc h' doc2 h2,
    Format formatter_test initial_globals env_example e = (Some doc, h') ∧
    Format formatter_test initial_globals env_example (with_Data h' e)
      = (Some doc2, h2) ∧
    jget "message" doc = Some (JStr "my log entry: test error") ∧
    jget "message" doc2 = Some (JStr "my log entry").
Proof.
  intros data e.
  assert (error_level (logrus.Level e)) as Hlevel by (by left).
  split; [exact Hlevel |].
  destruct (Format formatter_test initial_globals env_example e)
    as [[doc|] h'] eqn:HF; [| by vm_compute in HF].
  assert (h' = ∅) as ->.
  { apply Format_inv in HF as [-> _]. by vm_compute. }
  destruct (Format formatter_test initial_globals env_example (with_Data ∅ e))
    as [[doc2|] h2] eqn:HF2; [| by vm_compute in HF2].
  destruct (X15_error_lost_on_second_call formatter_test initial_globals
              env_example e (go_error "test error") doc ∅ doc2 h2
              Hlevel eq_refl HF HF2) as [Hmsg Hmsg2].
  exists doc, ∅, doc2, h2.
  split; [reflexivity |]. split; [exact HF2 |].
  split; [exact Hmsg | exact Hmsg2].
Defined.

(** ** Format: the data of the output *)

(** X16: [context.data] of the document is the caller's field map as the
    call leaves it: one member per remaining key, holding the encoding of
    its value, and no [data] member at all when no key remains. *)
Theorem X16_data_is_the_remaining_map f g env e doc h' :
  Format f g env e = (Some doc, h') ->
  (∀ k, jpath ["context"; "data"; k] doc = h' !! k ≫= json_Value) ∧
  (jpath ["context"; "data"] doc = None ↔ h' = ∅).
Proof.
  intros HF. split; [intros k; by apply (Format_data f g env e) |].
  pose proof (Format_store_encodable _ _ _ _ _ _ HF) as Henc.
  destruct (Format_context _ _ _ _ _ _ HF) as (c & cj & Hc & Hcj & Hget).
  destruct (envelope_Context f g env e) as (c' & Hc' & Hdata & _).
  assert (c' = c) as -> by congruence.
  apply Format_inv in HF as [-> _].
  destruct (json_context_members _ _ _ Hcj) as (Hd & _).
  rewrite Hdata in Hd. cbn [deref] in Hd.
  rewrite jpath_cons, Hget.
  change (Some cj ≫= jpath ["data"]) with (jpath ["data"] cj).
  rewrite jpath_one, Hd. case_decide as Hempty; [done |].
  destruct (json_map_is_Some _ Henc) as [j ->]. done.
Qed.

Lemma X16_data_is_the_remaining_map_witness :
  let data : Fields := {[ "X-Request-Id" := VString "r"; "foo" := VString "bar" ]} in
  ∃ doc h',
    Format formatter_test initial_globals env_example
      (record logrus.InfoLevel "m" data) = (Some doc, h') ∧
    jpath ["context"; "data"; "foo"] doc = Some (JStr "bar") ∧
    jpath ["context"; "data"; "X-Request-Id"] doc = None.
Proof.
  intros data.
  destruct (Format formatter_test initial_globals env_example
              (record logrus.InfoLevel "m" data)) as [[doc|] h'] eqn:HF;
    [| by vm_compute in HF].
  destruct (X16_data_is_the_remaining_map _ _ _ _ _ _ HF) as [Hk _].
  exists doc, h'. split; [reflexivity |].
  rewrite !Hk. apply Format_inv in HF as [-> _]. by vm_compute.
Defined.

(** ** getStringValue *)

(** X17: [getStringValue] never writes to the map; it returns the string
    stored under the key, and the empty string when the key is missing or
    holds a value of another type, so that its result is non-empty exactly
    when the key holds a non-empty string. *)
Theorem X17_getStringValue key r h :
  (getStringValue key r h).2 = h ∧
  (∀ s, deref h r !! key = Some (VString s) ->
        (getStringValue key r h).1 = s) ∧
  ((getStringValue key r h).1 ≠ "" ↔
   ∃ s, s ≠ "" ∧ deref h r !! key = Some (VString s)).
Proof.
  unfold getStringValue. rewrite bind_run. unfold map_index. cbn [fst snd].
  destruct (deref h r !! key) as [[|s|m|str j]|]; cbn; split_and!;
    try done; try (split; [done | by intros (s' & _ & [=])]).
  - by intros s' [= ->].
  - split; [intros Hs; by exists s | by intros (s' & Hs & [= ->])].
Qed.

Lemma X17_getStringValue_witness :
  let h : Fields := {[ "X-Request-Id" := VString "r"; "n" := go_int 5 ]} in
  (getStringValue "X-Request-Id" EntryData h).1 = "r" ∧
  (getStringValue "n" EntryData h).1 = "" ∧
  (getStringValue "missing" EntryData h).1 = "".
Proof.
  intros h. split.
  - exact (proj1 (proj2 (X17_getStringValue "X-Request-Id" EntryData h))
             "r" eq_refl).
  - split; reflexivity.
Defined.

(** ** The shape of the document *)

Lemma jpath_snoc p k j : jpath (p ++ [k]) j = jpath p j ≫= jget k.
Proof.
  revert j. induction p as [|k' p IH]; intros j.
  - cbn. by destruct (jget k j).
  - cbn [app jpath]. destruct (jget k' j) as [x|]; [apply IH | done].
Qed.

Lemma names_member_string name s : (member_string name s).*1 `sublist_of` [name].
Proof.
  unfold member_string. case_decide; [apply sublist_nil_l | done].
Qed.

Lemma names_member_ptr {A} name (enc : A -> option JSON) p ms :
  member_ptr name enc p = Some ms -> ms.*1 `sublist_of` [name].
Proof.
  unfold member_ptr. destruct p as [a|].
  - destruct (enc a); [| done]. by intros [= <-].
  - intros [= <-]. apply sublist_nil_l.
Qed.

(** X18: the members of the document come in the order of the fields of
    the envelope struct, each at most once: timestamp, serviceContext,
    message, severity, context, trace, span, sourceLocation, operation. *)
Theorem X18_members_in_struct_order f g env e doc h' :
  Format f g env e = (Some doc, h') ->
  member_names doc `sublist_of` entry_member_order ∧ NoDup (member_names doc).
Proof.
  intros (-> & Hdoc)%Format_inv.
  assert (member_names doc `sublist_of` entry_member_order) as Hsub.
  { unfold json_entry in Hdoc.
    destruct (member_ptr "serviceContext" _ _) as [svc|] eqn:Hsvc; [| done].
    destruct (member_ptr "context" _ _) as [ctx|] eqn:Hctx; [| done].
    destruct (member_ptr "sourceLocation" _ _) as [src|] eqn:Hsrc; [| done].
    destruct (member_ptr "operation" _ _) as [op|] eqn:Hop; [| done].
    cbn in Hdoc. injection Hdoc as <-. cbn [member_names].
    rewrite !fmap_app.
    change entry_member_order with
      (["timestamp"] ++ ["serviceContext"] ++ ["message"] ++ ["severity"] ++
       ["context"] ++ ["logging.googleapis.com/trace"] ++
       ["logging.googleapis.com/span_id"] ++ ["sourceLocation"] ++
       ["operation"])%list.
    repeat apply sublist_app;
      first [apply names_member_string | by eapply names_member_ptr]. }
  split; [done |].
  eapply sublist_NoDup; [| exact Hsub]. unfold entry_member_order.
  repeat (apply NoDup_cons; split;
          [repeat (apply not_elem_of_cons; split; [done |]);
           apply not_elem_of_nil |]).
  apply NoDup_nil_2.
Qed.

Lemma X18_members_in_struct_order_witness :
  ∃ doc h',
    Format formatter_test
      {| skipTimestamp := true; DefaultSubjectKey := "X-Subject-Id";
         DefaultOperationIdKey := "X-Request-Id" |}
      env_example (record logrus.InfoLevel "application up and running" ∅)
      = (Some doc, h') ∧
    member_names doc = ["message"; "severity"; "context"; "sourceLocation"] ∧
    NoDup (member_names doc).
Proof.
  destruct (Format formatter_test _ env_example
              (record logrus.InfoLevel "application up and running" ∅))
    as [[doc|] h'] eqn:HF; [| by vm_compute in HF].
  exists doc, h'. split; [reflexivity |]. split.
  - vm_compute in HF. by injection HF as <- _.
  - exact (proj2 (X18_members_in_struct_order _ _ _ _ _ _ HF)).
Defined.

(** X19: the line of a resolved origin is written with the same decimal
    digits in both locations, but as a JSON string in [sourceLocation] and
    as a JSON number in [context.reportLocation], where line 0 is left out
    as an empty value. *)
Theorem X19_line_number_types f g env e fr doc h' :
  (errorOrigin f (callers env)).1 = Some fr ->
  (Z.of_N (frame_line fr) <= maxInt64)%Z ->
  Format f g env e = (Some doc, h') ->
  (error_level (logrus.Level e) ->
     jpath ["context"; "reportLocation"; "lineNumber"] doc =
       if decide (frame_line fr = 0%N) then None
       else Some (JNum (fmt_d (Z.of_N (frame_line fr))))) ∧
  (¬ error_level (logrus.Level e) ->
     jpath ["sourceLocation"; "line"] doc =
       Some (JStr (fmt_d (Z.of_N (frame_line fr))))).
Proof.
  intros Hfr Hline HF.
  destruct (Format_context_members _ _ _ _ _ _ HF) as (Hloc & _).
  destruct (Format_members _ _ _ _ _ _ HF)
    as (_ & _ & _ & _ & _ & _ & Hsrc & _).
  rewrite Hfr in Hloc, Hsrc. cbn [fmt_plus_s fmt_d_call fmt_n] in Hloc, Hsrc.
  rewrite ParseInt_fmt_d in Hloc, Hsrc by done. cbn [fst] in Hloc, Hsrc.
  split.
  - intros Htier%error_tier_level. rewrite Htier in Hloc.
    change ["context"; "reportLocation"; "lineNumber"]
      with (["context"; "reportLocation"] ++ ["lineNumber"])%list.
    rewrite jpath_snoc, Hloc. unfold json_reportLocation. cbn [mbind option_bind].
    unfold jget. rewrite !assoc_app, !assoc_member_string, assoc_member_int.
    names. cbn [FilePath LineNumber FunctionName].
    destruct (opt_string (frame_file fr)); repeat case_decide;
      first [done | lia].
  - intros Hlevel.
    assert (error_tier (severity_of e) = false) as Htier.
    { destruct (error_tier (severity_of e)) eqn:H; [| done].
      by apply error_tier_level in H. }
    rewrite Htier in Hsrc. rewrite jpath_cons, Hsrc.
    unfold json_sourceLocation. cbn [mbind option_bind]. rewrite jpath_one.
    unfold jget. rewrite !assoc_app, !assoc_member_string. names.
    cbn [File Line Function].
    destruct (opt_string (frame_file fr)); unfold opt_string;
      rewrite decide_False; first [done | apply fmt_d_nonempty].
Qed.

Lemma X19_line_number_types_witness :
  let e := record logrus.ErrorLevel "m" ∅ in
  (errorOrigin formatter_test (callers env_example)).1 = Some frame_example ∧
  error_level (logrus.Level e) ∧
  ∃ doc h',
    Format formatter_test initial_globals env_example e = (Some doc, h') ∧
    jpath ["context"; "reportLocation"; "lineNumber"] doc = Some (JNum "19").
Proof.
  intros e.
  assert (error_level (logrus.Level e)) as Hlevel by (by left).
  split; [reflexivity |]. split; [exact Hlevel |].
  destruct (Format formatter_test initial_globals env_example e)
    as [[doc|] h'] eqn:HF; [| by vm_compute in HF].
  exists doc, h'. split; [reflexivity |].
  exact (proj1 (X19_line_number_types formatter_test initial_globals
                  env_example e frame_example doc h' eq_refl
                  ltac:(by vm_compute) HF) Hlevel).
Defined.

(** ** The example test of the repository *)

(** The first line [ExampleLogError] expects: the info-level call, with
    the timestamp suppressed as the test does. *)
Example ExampleLogError_info :
  (Format (NewFormatter [WithService "test-service"; WithVersion "v0.1.0"])
     {| skipTimestamp := true; DefaultSubjectKey := "X-Subject-Id";
        DefaultOperationIdKey := "X-Request-Id" |}
     env_example
     (record logrus.InfoLevel "application up and running" ∅)).1 =
  Some (JObj
    [("message", JStr "application up and running");
     ("severity", JStr "INFO");
     ("context", JObj []);
     ("sourceLocation",
      JObj [("file", JStr "github.com/connctd/logrus-stackdriver-formatter/example_test.go");
            ("line", JStr "19");
            ("function", JStr "ExampleLogError")])]).
Proof. by vm_compute. Qed.
